(** * server/extract_docs.py: best-effort extractor for PDF and DOCX text

    A shallow embedding of the four functions of the script
    ([read_stdin], [extract_docx], [extract_pdf], [main]) and of the
    pieces of the Python runtime they call, followed by the properties
    of the functional contract.

    Conventions.
    - A Python [str] is a list of Unicode code points ([N]); a [bytes]
      object is a list of [byte].
    - A computation is a function from the world (the log of library
      calls made so far and what has been written to standard output) to
      an outcome, a value or a raised exception, and the new world.
      [try: ... except Exception: ...] is [try_except].
    - The third-party and archive/XML libraries (zipfile, ElementTree,
      pypdf) are a [Runtime] record: every call may raise. *)

From Stdlib Require Import List Arith NArith Lia Bool String Ascii.
From Stdlib.Strings Require Import Byte.
Import ListNotations.

Local Open Scope N_scope.

(* ================================================================= *)
(** ** Python strings and bytes *)

Module Py.

Definition char := N.
Definition str := list char.
Definition bytes := list byte.

(** A literal of the source, as code points. *)
Definition lit (s : string) : str :=
  map N_of_ascii (list_ascii_of_string s).

(** [chr(byte)] for a byte of a [bytes] object. *)
Definition chr (b : byte) : char := Byte.to_N b.

(** The double quote and the backslash, which the literals of this
    file do not spell. *)
Definition dquote : char := 34.
Definition backslash : char := 92.

(** The separator of the page texts, a line feed. *)
Definition newline : list char := [10].

Definition str_eqb (a b : str) : bool :=
  if list_eq_dec N.eq_dec a b then true else false.

(** [not x] for a sequence. *)
Definition is_empty {A} (l : list A) : bool :=
  match l with [] => true | _ => false end.

(** [str.isspace] on one character: the code points with the Unicode
    White_Space property or a bidirectional type of WS, B or S. *)
Definition isspace (c : char) : bool :=
  ((9 <=? c) && (c <=? 13)) || ((28 <=? c) && (c <=? 32))
  || (c =? 133) || (c =? 160) || (c =? 5760)
  || ((8192 <=? c) && (c <=? 8202))
  || (c =? 8232) || (c =? 8233) || (c =? 8239) || (c =? 8287)
  || (c =? 12288).

Fixpoint lstrip (s : str) : str :=
  match s with
  | c :: rest => if isspace c then lstrip rest else s
  | [] => []
  end.

Definition rstrip (s : str) : str := rev (lstrip (rev s)).

(** [s.strip()] *)
Definition strip (s : str) : str := rstrip (lstrip s).

(** [sep.join(parts)] *)
Fixpoint join (sep : str) (parts : list str) : str :=
  match parts with
  | [] => []
  | [p] => p
  | p :: rest => p ++ sep ++ join sep rest
  end.

(** [s.startswith(prefix)] and [s.endswith(suffix)] *)
Fixpoint startswith (s prefix : str) : bool :=
  match prefix, s with
  | [], _ => true
  | p :: prefix', c :: s' => (c =? p) && startswith s' prefix'
  | _ :: _, [] => false
  end.

Definition endswith (s suffix : str) : bool :=
  startswith (rev s) (rev suffix).

End Py.

Import Py.

(* ================================================================= *)
(** ** Exceptions, outcomes and the computation monad *)

(** An instance of a subclass of [Exception], by class name. *)
Inductive exn : Type := Exn (cls : string).

Inductive outcome (A : Type) : Type :=
| Return (a : A)
| Raise (e : exn).

Arguments Return {A} a.
Arguments Raise {A} e.

(** The library operations a run performs, in order. [ByteScan] marks
    the start of the printable-byte scan of [extract_pdf]. *)
Inductive event : Type :=
| ZipFileNew (data : bytes)
| ZipOpen (name : str)
| ZipRead
| XmlFromstring (xml : bytes)
| ImportPypdf
| PdfReaderNew (data : bytes)
| PageExtractText
| ByteScan (data : bytes).

Record world : Type := World {
  calls : list event;
  stdout : list str
}.

Definition M (A : Type) : Type := world -> outcome A * world.

Definition ret {A} (a : A) : M A := fun w => (Return a, w).

Definition raise {A} (e : exn) : M A := fun w => (Raise e, w).

Definition bind {A B} (m : M A) (k : A -> M B) : M B :=
  fun w =>
    match m w with
    | (Return a, w') => k a w'
    | (Raise e, w') => (Raise e, w')
    end.

(** [try: body / except Exception: handler] *)
Definition try_except {A} (body : M A) (handler : exn -> M A) : M A :=
  fun w =>
    match body w with
    | (Return a, w') => (Return a, w')
    | (Raise e, w') => handler e w'
    end.

(** A pure operation that may raise. *)
Definition lift {A} (r : outcome A) : M A := fun w => (r, w).

Definition log (ev : event) : M unit :=
  fun w => (Return tt, World (calls w ++ [ev]) (stdout w)).

(** A call into a library: recorded, then its outcome. *)
Definition call {A} (ev : event) (r : outcome A) : M A :=
  bind (log ev) (fun _ => lift r).

(** [sys.stdout.write(s)] *)
Definition stdout_write (s : str) : M unit :=
  fun w => (Return tt, World (calls w) (stdout w ++ [s])).

Declare Scope py_scope.
Delimit Scope py_scope with py.
Notation "x <- m ;; k" := (bind m (fun x => k))
  (at level 100, m at next level, right associativity) : py_scope.
Notation "m ;;; k" := (bind m (fun _ => k))
  (at level 100, right associativity) : py_scope.
Local Open Scope py_scope.

Definition initial_world : world := World [] [].

(** The outcome of a run from a world, and the world it leaves. *)
Definition result {A} (m : M A) (w : world) : outcome A := fst (m w).
Definition final {A} (m : M A) (w : world) : world := snd (m w).

(** A computation that writes nothing to standard output. *)
Definition quiet {A} (m : M A) : Prop :=
  forall w, stdout (snd (m w)) = stdout w.

(* ================================================================= *)
(** ** base64.b64decode *)

Module Base64.

(** [s.encode('ascii')] of [_bytes_from_decode_data]: a [str] with a
    character outside ASCII raises [ValueError]. *)
Definition byte_of_N (n : N) : byte :=
  match Byte.of_N (n mod 256) with
  | Some b => b
  | None => x00
  end.

Fixpoint encode_ascii (s : str) : outcome bytes :=
  match s with
  | [] => Return []
  | c :: rest =>
      if c <? 128 then
        match encode_ascii rest with
        | Return bs => Return (byte_of_N c :: bs)
        | Raise e => Raise e
        end
      else Raise (Exn "ValueError")
  end.

(** [table_a2b_base64]: the value of a character of the alphabet
    [A-Za-z0-9+/], [None] for every other byte. *)
Definition table_a2b_base64 (b : byte) : option N :=
  let c := Byte.to_N b in
  if (65 <=? c) && (c <=? 90) then Some (c - 65)
  else if (97 <=? c) && (c <=? 122) then Some (c - 97 + 26)
  else if (48 <=? c) && (c <=? 57) then Some (c - 48 + 52)
  else if c =? 43 then Some 62
  else if c =? 47 then Some 63
  else None.

Definition BASE64_PAD : N := 61.

(** An [unsigned char] store. *)
Definition u8 (n : N) : byte := byte_of_N (N.land n 255).

(** The decoding loop of [binascii.a2b_base64] with [strict_mode]
    off, which is how [b64decode] runs it when [validate] is left at
    its default. A character outside the alphabet is skipped; a pad
    that completes a quad ends the decoding and what follows it is
    not read; a pad anywhere else is skipped. At the end of input an
    incomplete quad raises [binascii.Error]. *)
Fixpoint a2b_base64_loop (ascii_data : bytes) (quad_pos : N)
    (leftchar : N) (pads : N) (bin_data : bytes) : outcome bytes :=
  match ascii_data with
  | [] =>
      if quad_pos =? 0 then Return bin_data
      else Raise (Exn "binascii.Error")
  | this_ch :: rest =>
      if Byte.to_N this_ch =? BASE64_PAD then
        if 2 <=? quad_pos then
          if 4 <=? quad_pos + (pads + 1) then Return bin_data
          else a2b_base64_loop rest quad_pos leftchar (pads + 1) bin_data
        else a2b_base64_loop rest quad_pos leftchar pads bin_data
      else
        match table_a2b_base64 this_ch with
        | None => a2b_base64_loop rest quad_pos leftchar pads bin_data
        | Some v =>
            if quad_pos =? 0 then
              a2b_base64_loop rest 1 v 0 bin_data
            else if quad_pos =? 1 then
              a2b_base64_loop rest 2 (N.land v 15) 0
                (bin_data ++ [u8 (N.lor (N.shiftl leftchar 2) (N.shiftr v 4))])
            else if quad_pos =? 2 then
              a2b_base64_loop rest 3 (N.land v 3) 0
                (bin_data ++ [u8 (N.lor (N.shiftl leftchar 4) (N.shiftr v 2))])
            else
              a2b_base64_loop rest 0 0 0
                (bin_data ++ [u8 (N.lor (N.shiftl leftchar 6) v)])
        end
  end.

Definition a2b_base64 (data : bytes) : outcome bytes :=
  a2b_base64_loop data 0 0 0 [].

(** [base64.b64decode(s)] for a [str] argument. *)
Definition b64decode (s : str) : outcome bytes :=
  match encode_ascii s with
  | Return bs => a2b_base64 bs
  | Raise e => Raise e
  end.

End Base64.

(* ================================================================= *)
(** ** The libraries of the runtime *)

(** An [xml.etree.ElementTree.Element]: its tag ([{uri}local] for a
    name in a namespace, the bare name otherwise), the text before its
    first child ([None] when there is none), the text after its end tag
    and its children. *)
#[warnings="-register-all"]
Inductive Element : Type :=
| Elem (tag : str) (text : option str) (tail : option str)
       (children : list Element).

Definition tag (e : Element) : str := let (t, _, _, _) := e in t.
Definition text (e : Element) : option str := let (_, t, _, _) := e in t.
Definition children (e : Element) : list Element :=
  let (_, _, _, c) := e in c.

(** [root.iter()]: the element, then its descendants, depth first in
    document order. *)
Fixpoint iter (e : Element) : list Element :=
  match e with
  | Elem _ _ _ cs => e :: flat_map iter cs
  end.

(** Iterating [reader.pages]: the pages it yields, each with the
    outcome of its [extract_text()] ([None] for Python's [None]), until
    it is exhausted or raises. *)
Inductive page_iter : Type :=
| StopIteration
| IterRaise (e : exn)
| NextPage (extract_text : outcome (option str)) (rest : page_iter).

Record Runtime : Type := {
  archive : Type;
  zipext : Type;
  reader : Type;
  (** [zipfile.ZipFile(io.BytesIO(data))] *)
  ZipFile : bytes -> outcome archive;
  (** [archive.open(name)] *)
  zip_open : archive -> str -> outcome zipext;
  (** [doc.read()] *)
  zip_read : zipext -> outcome bytes;
  (** [ET.fromstring(xml_bytes)] *)
  ET_fromstring : bytes -> outcome Element;
  (** [from pypdf import PdfReader]: the class, called on
      [io.BytesIO(data)], or [ImportError] *)
  import_PdfReader : outcome (bytes -> outcome reader);
  (** [reader.pages] *)
  pages : reader -> page_iter
}.

(* ================================================================= *)
(** ** json.dumps({'text': text}, ensure_ascii=False) *)

Module Json.

Definition hex_digit (n : N) : char :=
  if n <? 10 then 48 + n else 97 + (n - 10).

(** ['\\u{0:04x}'.format(c)] *)
Definition u_escape (c : char) : str :=
  [backslash; 117;
   hex_digit ((c / 4096) mod 16); hex_digit ((c / 256) mod 16);
   hex_digit ((c / 16) mod 16); hex_digit (c mod 16)].

(** [ESCAPE_DCT] on the characters matched by [ESCAPE]: the
    backslash, the double quote and the characters below U+0020;
    every other character is kept. *)
Definition escape_char (c : char) : str :=
  if c =? backslash then [backslash; backslash]
  else if c =? dquote then [backslash; dquote]
  else if c =? 8 then [backslash; 98]
  else if c =? 12 then [backslash; 102]
  else if c =? 10 then [backslash; 110]
  else if c =? 13 then [backslash; 114]
  else if c =? 9 then [backslash; 116]
  else if c <? 32 then u_escape c
  else [c].

(** [encode_basestring(s)], the string encoder when [ensure_ascii]
    is off. *)
Definition encode_basestring (s : str) : str :=
  [dquote] ++ flat_map escape_char s ++ [dquote].

(** The encoding of a dict with the one key ['text'], with the
    default separators [', '] and [': ']. *)
Definition dumps_text (text : str) : str :=
  lit "{" ++ encode_basestring (lit "text") ++ lit ": "
    ++ encode_basestring text ++ lit "}".

End Json.

(* ================================================================= *)
(** ** The script *)

Section Script.

Variable rt : Runtime.

(** [read_stdin], on what [sys.stdin.read()] returned. *)
Definition read_stdin (stdin : str) : M bytes :=
  let payload := strip stdin in
  if is_empty payload then ret []
  else
    try_except (lift (Base64.b64decode payload))
               (fun _ => ret []).

(** [element.text] as a condition. *)
Definition truthy (t : option str) : bool :=
  match t with
  | Some (_ :: _) => true
  | _ => false
  end.

(** [element.text] where it has passed the condition. *)
Definition text_of (t : option str) : str :=
  match t with
  | Some s => s
  | None => []
  end.

(** One turn of the loop over [root.iter()]. *)
Definition collect_text (text_nodes : list str) (element : Element)
  : list str :=
  if endswith (tag element) (lit "}t") && truthy (text element)
  then text_nodes ++ [text_of (text element)]
  else text_nodes.

Definition extract_docx (data : bytes) : M str :=
  if is_empty data then ret []
  else
    try_except
      (archive <- call (ZipFileNew data) (ZipFile rt data) ;;
       doc <- call (ZipOpen (lit "word/document.xml"))
                   (zip_open rt archive (lit "word/document.xml")) ;;
       xml_bytes <- call ZipRead (zip_read rt doc) ;;
       root <- call (XmlFromstring xml_bytes)
                    (ET_fromstring rt xml_bytes) ;;
       let text_nodes := fold_left collect_text (iter root) [] in
       ret (strip (join (lit " ") text_nodes)))
      (fun _ => ret []).

(** [page.extract_text() or ''] *)
Definition or_empty (t : option str) : str :=
  match t with
  | Some (c :: s) => c :: s
  | _ => []
  end.

(** The loop over [reader.pages]; a page whose [extract_text] raises
    is passed over by [continue]. *)
Fixpoint pages_loop (it : page_iter) (chunks : list str)
  : M (list str) :=
  match it with
  | StopIteration => ret chunks
  | IterRaise e => raise e
  | NextPage extract_text rest =>
      chunks' <- try_except
                   (t <- call PageExtractText extract_text ;;
                    ret (chunks ++ [or_empty t]))
                   (fun _ => ret chunks) ;;
      pages_loop rest chunks'
  end.

(** [32 <= byte <= 126] *)
Definition printable_byte (b : byte) : bool :=
  (32 <=? Byte.to_N b) && (Byte.to_N b <=? 126).

(** One turn of the loop over [data]; the state is the pair of
    [printable] and [run]. *)
Definition scan_byte (st : list str * str) (b : byte)
  : list str * str :=
  let (printable, run) := st in
  if printable_byte b then (printable, run ++ [chr b])
  else
    if (6 <=? List.length run)%nat then (printable ++ [run], [])
    else (printable, []).

(** Lines 59 to 71: the scan, the flush of the last run (lines 68
    and 69), the cut to 400 fragments, the join and the strip. *)
Definition flush (st : list str * str) : list str :=
  let (printable, run) := st in
  if (6 <=? List.length run)%nat then printable ++ [run]
  else printable.

Definition printable_fragments (data : bytes) : list str :=
  flush (fold_left scan_byte data ([], [])).

Definition scan_text (data : bytes) : str :=
  strip (join (lit " ") (firstn 400 (printable_fragments data))).

(** Lines 45 to 57: [Some] is the [return] inside the [try], [None]
    the [pass] of the handler. *)
Definition pypdf_text (data : bytes) : M (option str) :=
  try_except
    (PdfReader <- call ImportPypdf (import_PdfReader rt) ;;
     reader <- call (PdfReaderNew data) (PdfReader data) ;;
     chunks <- pages_loop (pages rt reader) [] ;;
     ret (Some (strip (join newline chunks))))
    (fun _ => ret None).

Definition extract_pdf (data : bytes) : M str :=
  if is_empty data then ret []
  else
    r <- pypdf_text data ;;
    match r with
    | Some s => ret s
    | None =>
        log (ByteScan data) ;;;
        ret (scan_text data)
    end.

Definition MIME_DOCX : str :=
  lit "application/vnd.openxmlformats-officedocument.wordprocessingml.document".
Definition MIME_PDF : str := lit "application/pdf".

(** Line 75: [sys.argv[1] if len(sys.argv) > 1 else ''] *)
Definition mime_arg (argv : list str) : str :=
  if (1 <? List.length argv)%nat then nth 1 argv [] else [].

(** Lines 78 to 83, on the two extractors. *)
Definition dispatch (docx pdf : bytes -> M str) (mime : str)
    (data : bytes) : M str :=
  if str_eqb mime MIME_DOCX then docx data
  else if str_eqb mime MIME_PDF then pdf data
  else ret [].

(** [main], on [sys.argv] and on what [sys.stdin.read()] returns. *)
Definition main (argv : list str) (stdin : str) : M unit :=
  let mime := mime_arg argv in
  data <- read_stdin stdin ;;
  text <- dispatch extract_docx extract_pdf mime data ;;
  stdout_write (Json.dumps_text text).

End Script.

(* ================================================================= *)
(** ** JSON texts (RFC 8259), to read back what [main] writes *)

Module JsonSyntax.

#[warnings="-register-all"]
Inductive value : Type :=
| JNull
| JBool (b : bool)
| JNumber (lexeme : str)
| JString (s : str)
| JArray (items : list value)
| JObject (members : list (str * value)).

Definition is_ws (c : char) : bool :=
  (c =? 32) || (c =? 9) || (c =? 10) || (c =? 13).

Fixpoint skip_ws (s : str) : str :=
  match s with
  | c :: rest => if is_ws c then skip_ws rest else s
  | [] => []
  end.

Definition is_digit (c : char) : bool := (48 <=? c) && (c <=? 57).

Definition hex_value (c : char) : option N :=
  if is_digit c then Some (c - 48)
  else if (97 <=? c) && (c <=? 102) then Some (c - 97 + 10)
  else if (65 <=? c) && (c <=? 70) then Some (c - 65 + 10)
  else None.

Definition hex4 (a b c d : char) : option char :=
  match hex_value a, hex_value b, hex_value c, hex_value d with
  | Some x, Some y, Some z, Some t =>
      Some (x * 4096 + y * 256 + z * 16 + t)
  | _, _, _, _ => None
  end.

(** The character a two-character escape stands for. *)
Definition unescape (e : char) : option char :=
  if e =? dquote then Some dquote
  else if e =? backslash then Some backslash
  else if e =? 47 then Some 47
  else if e =? 98 then Some 8
  else if e =? 102 then Some 12
  else if e =? 110 then Some 10
  else if e =? 114 then Some 13
  else if e =? 116 then Some 9
  else None.

(** The characters of a string after its opening quote: the string
    read and what follows its closing quote. A character below
    U+0020 must be escaped. *)
Fixpoint lex_chars (s : str) : option (str * str) :=
  match s with
  | [] => None
  | c :: rest =>
      if c =? dquote then Some ([], rest)
      else if c =? backslash then
        match rest with
        | [] => None
        | e :: rest' =>
            if e =? 117 then
              match rest' with
              | h1 :: h2 :: h3 :: h4 :: rest'' =>
                  match hex4 h1 h2 h3 h4, lex_chars rest'' with
                  | Some d, Some (t, r) => Some (d :: t, r)
                  | _, _ => None
                  end
              | _ => None
              end
            else
              match unescape e, lex_chars rest' with
              | Some d, Some (t, r) => Some (d :: t, r)
              | _, _ => None
              end
        end
      else if c <? 32 then None
      else
        match lex_chars rest with
        | Some (t, r) => Some (c :: t, r)
        | None => None
        end
  end.

Definition lex_string (s : str) : option (str * str) :=
  match s with
  | c :: rest => if c =? dquote then lex_chars rest else None
  | [] => None
  end.

Fixpoint span_digits (s : str) : str * str :=
  match s with
  | c :: rest =>
      if is_digit c then let (d, r) := span_digits rest in (c :: d, r)
      else ([], s)
  | [] => ([], [])
  end.

(** [-? int frac? exp?]: the lexeme and what follows it. *)
Definition lex_number (s : str) : option (str * str) :=
  let (sign, s1) :=
    match s with
    | c :: r => if c =? 45 then ([c], r) else ([], s)
    | [] => ([], s)
    end in
  let (int, s2) := span_digits s1 in
  match int with
  | [] => None
  | d :: ds =>
      if (d =? 48) && negb (is_empty ds) then None
      else
        let frac :=
          match s2 with
          | c :: r =>
              if c =? 46 then
                let (f, r') := span_digits r in
                if is_empty f then None else Some (c :: f, r')
              else Some ([], s2)
          | [] => Some ([], s2)
          end in
        match frac with
        | None => None
        | Some (f, s3) =>
            match s3 with
            | c :: r =>
                if (c =? 101) || (c =? 69) then
                  let (sg, r1) :=
                    match r with
                    | g :: r0 =>
                        if (g =? 43) || (g =? 45) then ([g], r0)
                        else ([], r)
                    | [] => ([], r)
                    end in
                  let (x, r2) := span_digits r1 in
                  if is_empty x then None
                  else Some (sign ++ int ++ f ++ [c] ++ sg ++ x, r2)
                else Some (sign ++ int ++ f, s3)
            | [] => Some (sign ++ int ++ f, s3)
            end
        end
  end.

Definition literal (word : string) (v : value) (s : str)
  : option (value * str) :=
  if startswith s (lit word)
  then Some (v, skipn (List.length (lit word)) s)
  else None.

(** A value, then the members of an object after its brace or a
    comma, then the items of an array likewise. The fuel bounds the
    nesting and the number of members and items. *)
Fixpoint parse_value (fuel : nat) (s : str) : option (value * str) :=
  match fuel with
  | O => None
  | S fuel' =>
      match skip_ws s with
      | [] => None
      | c :: rest =>
          if c =? dquote then
            match lex_chars rest with
            | Some (t, r) => Some (JString t, r)
            | None => None
            end
          else if c =? 123 then
            match skip_ws rest with
            | c' :: rest' =>
                if c' =? 125 then Some (JObject [], rest')
                else
                  match parse_members fuel' rest with
                  | Some (ms, r) => Some (JObject ms, r)
                  | None => None
                  end
            | [] => None
            end
          else if c =? 91 then
            match skip_ws rest with
            | c' :: rest' =>
                if c' =? 93 then Some (JArray [], rest')
                else
                  match parse_items fuel' rest with
                  | Some (vs, r) => Some (JArray vs, r)
                  | None => None
                  end
            | [] => None
            end
          else if c =? 116 then literal "true" (JBool true) (c :: rest)
          else if c =? 102 then literal "false" (JBool false) (c :: rest)
          else if c =? 110 then literal "null" JNull (c :: rest)
          else
            match lex_number (c :: rest) with
            | Some (n, r) => Some (JNumber n, r)
            | None => None
            end
      end
  end
with parse_members (fuel : nat) (s : str)
  : option (list (str * value) * str) :=
  match fuel with
  | O => None
  | S fuel' =>
      match lex_string (skip_ws s) with
      | None => None
      | Some (key, r) =>
          match skip_ws r with
          | c :: r1 =>
              if c =? 58 then
                match parse_value fuel' r1 with
                | None => None
                | Some (v, r2) =>
                    match skip_ws r2 with
                    | d :: r3 =>
                        if d =? 125 then Some ([(key, v)], r3)
                        else if d =? 44 then
                          match parse_members fuel' r3 with
                          | Some (ms, r4) => Some ((key, v) :: ms, r4)
                          | None => None
                          end
                        else None
                    | [] => None
                    end
                end
              else None
          | [] => None
          end
      end
  end
with parse_items (fuel : nat) (s : str) : option (list value * str) :=
  match fuel with
  | O => None
  | S fuel' =>
      match parse_value fuel' s with
      | None => None
      | Some (v, r) =>
          match skip_ws r with
          | d :: r1 =>
              if d =? 93 then Some ([v], r1)
              else if d =? 44 then
                match parse_items fuel' r1 with
                | Some (vs, r2) => Some (v :: vs, r2)
                | None => None
                end
              else None
          | [] => None
          end
      end
  end.

(** A JSON text is one value between optional whitespace; a text of
    [n] characters needs no more fuel than [n + 1]. *)
Definition parse (s : str) : option value :=
  match parse_value (S (List.length s)) s with
  | Some (v, r) => if is_empty (skip_ws r) then Some v else None
  | None => None
  end.

End JsonSyntax.

(* ================================================================= *)
(** ** The contract, in its own words *)

Module Spec.

(** A byte of the printable ASCII range: its value is at least 32 and
    at most 126. *)
Definition in_range (b : byte) : bool :=
  (32 <=? Byte.to_N b) && (Byte.to_N b <=? 126).

(** The character of a byte: the one whose code point is the value of
    the byte, counted from [x00] as 0 up to [xff] as 255. *)
Definition code_point (b : byte) : char := N.of_nat (Byte.to_nat b).

(** The pieces into which the bytes outside [32, 126] cut the data:
    one more piece than there are such bytes, some of them empty. *)
Fixpoint pieces (data : bytes) : list bytes :=
  match data with
  | [] => [[]]
  | b :: rest =>
      if in_range b then
        match pieces rest with
        | p :: ps => (b :: p) :: ps
        | [] => [[b]]
        end
      else [] :: pieces rest
  end.

(** The data back from its pieces and the bytes that cut it. *)
Fixpoint weave (ps : list bytes) (cuts : bytes) : bytes :=
  match ps, cuts with
  | p :: ps', c :: cuts' => p ++ c :: weave ps' cuts'
  | p :: _, [] => p
  | [], _ => []
  end.

(** The maximal runs of consecutive bytes in [32, 126], in scan
    order: the pieces that are not empty. *)
Definition maximal_runs (data : bytes) : list bytes :=
  filter (fun p => negb (is_empty p)) (pieces data).

(** The pieces [ps], the first of which continues the run [rb]. *)
Definition glue (rb : bytes) (ps : list bytes) : list bytes :=
  match ps with
  | p :: ps' => (rb ++ p) :: ps'
  | [] => [rb]
  end.

(** Of the pieces [ps], those of length at least 6, one character
    per byte. *)
Definition kept (ps : list bytes) : list str :=
  map (map code_point)
      (filter (fun r => (6 <=? List.length r)%nat)
              (filter (fun p => negb (is_empty p)) ps)).

(** The runs of length at least 6, one character per byte. *)
Definition qualifying_runs (data : bytes) : list str :=
  map (map code_point)
      (filter (fun r => (6 <=? List.length r)%nat) (maximal_runs data)).


(** What precedes the first closing brace. *)
Fixpoint before_brace (s : str) : str :=
  match s with
  | [] => []
  | c :: rest => if c =? 125 then [] else c :: before_brace rest
  end.

(** The local name of a tag: what follows its last closing brace,
    the whole tag when it has none. *)
Definition local_name (t : str) : str := rev (before_brace (rev t)).

(** The tag has a namespace prefix. *)
Definition in_namespace (t : str) : bool := existsb (N.eqb 125) t.


(** The same for the elements named [t] in some namespace. *)
Definition runs_in_namespace (root : Element) : list str :=
  map (fun e => text_of (text e))
      (filter (fun e => in_namespace (tag e)
                        && str_eqb (local_name (tag e)) (lit "t")
                        && truthy (text e))
              (iter root)).

Definition joined (runs : list str) : str :=
  strip (join (lit " ") runs).

(** A character of the base64 alphabet, and the pad. *)
Definition b64_alpha (c : char) : bool :=
  ((65 <=? c) && (c <=? 90)) || ((97 <=? c) && (c <=? 122))
  || ((48 <=? c) && (c <=? 57)) || (c =? 43) || (c =? 47).

Definition b64_pad (c : char) : bool := c =? 61.

(** Well-formed base64 (RFC 4648, section 4): quads of characters of
    the alphabet, the last of which may end in one or two pads. *)
Fixpoint well_formed_base64 (s : str) : bool :=
  match s with
  | [] => true
  | a :: b :: c :: d :: rest =>
      b64_alpha a && b64_alpha b
      && (if is_empty rest
          then (b64_alpha c && (b64_alpha d || b64_pad d))
               || (b64_pad c && b64_pad d)
          else b64_alpha c && b64_alpha d && well_formed_base64 rest)
  | _ => false
  end.

(** The same, read one character at a time from position [pos] of
    a quad: a pad may only stand at position 2, followed by one more
    pad and nothing else, or at position 3, followed by nothing. *)
Fixpoint well_formed_from (pos : nat) (s : str) : bool :=
  match s with
  | [] => (pos =? 0)%nat
  | c :: rest =>
      if b64_alpha c then
        well_formed_from (match pos with 3%nat => 0 | _ => S pos end) rest
      else if b64_pad c then
        match pos with
        | 2%nat => match rest with
                   | [d] => b64_pad d
                   | _ => false
                   end
        | 3%nat => is_empty rest
        | _ => false
        end
      else false
  end.

(** [w] is what is left of [s] after deleting some of its items. *)
Inductive subsequence {A : Type} : list A -> list A -> Prop :=
| sub_nil : subsequence [] []
| sub_keep c w s : subsequence w s -> subsequence (c :: w) (c :: s)
| sub_drop c w s : subsequence w s -> subsequence w (c :: s).

End Spec.

(* ================================================================= *)
(** ** A runtime to run the script on *)

(** A runtime whose archives hold the one entry [word/document.xml]
    with the archive's own bytes, whose XML parser answers [doc] for
    every input, and whose pypdf is [pypdf]. *)
Definition stub_runtime (doc : outcome Element)
    (pypdf : outcome (bytes -> outcome page_iter)) : Runtime :=
  {| archive := bytes;
     zipext := bytes;
     reader := page_iter;
     ZipFile := fun data => Return data;
     zip_open := fun a name =>
       if str_eqb name (lit "word/document.xml") then Return a
       else Raise (Exn "KeyError");
     zip_read := fun e => Return e;
     ET_fromstring := fun _ => doc;
     import_PdfReader := pypdf;
     pages := fun r => r |}.

(** A runtime without pypdf and where nothing parses. *)
Definition bare_runtime : Runtime :=
  stub_runtime (Raise (Exn "ParseError")) (Raise (Exn "ImportError")).

Definition bytes_of (s : string) : bytes := list_byte_of_string s.


(** [<w:document xmlns:w='urn:w'><w:p><w:r><w:t>Hello</w:t></w:r>
    <w:r><w:t/></w:r><w:r><w:t> world </w:t></w:r></w:p>
    </w:document>] as ElementTree reads it. *)
Definition word_document : Element :=
  Elem (lit "{urn:w}document") None None
    [Elem (lit "{urn:w}p") None None
       [Elem (lit "{urn:w}r") None None
          [Elem (lit "{urn:w}t") (Some (lit "Hello")) None []];
        Elem (lit "{urn:w}r") None None
          [Elem (lit "{urn:w}t") None None []];
        Elem (lit "{urn:w}r") None None
          [Elem (lit "{urn:w}t") (Some (lit " world ")) None []]]].


(** Four pages: the second fails to extract, the third has no text. *)
Definition four_pages : page_iter :=
  NextPage (Return (Some (lit "one")))
    (NextPage (Raise (Exn "PdfReadError"))
       (NextPage (Return None)
          (NextPage (Return (Some (lit "four"))) StopIteration))).

(** A runtime whose pypdf reads [four_pages] in every input. *)
Definition four_pages_runtime : Runtime :=
  stub_runtime (Raise (Exn "ParseError"))
               (Return (fun _ => Return four_pages)).

(* ================================================================= *)
(** ** What the libraries find in the data *)

Section Found.

Variable rt : Runtime.

Definition and_then {A B} (r : outcome A) (k : A -> outcome B)
  : outcome B :=
  match r with
  | Return a => k a
  | Raise e => Raise e
  end.

(** The tree of [word/document.xml] in the archive [data], or the
    first exception on the way to it: the archive does not open, the
    entry is missing or does not read, the XML does not parse. *)
Definition document_root (data : bytes) : outcome Element :=
  and_then (ZipFile rt data) (fun a =>
  and_then (zip_open rt a (lit "word/document.xml")) (fun d =>
  and_then (zip_read rt d) (fun x =>
  ET_fromstring rt x))).

(** The pages of the document [data], when pypdf is there and builds
    a reader over it. *)
Definition document_pages (data : bytes) : outcome page_iter :=
  and_then (import_PdfReader rt) (fun PdfReader =>
  and_then (PdfReader data) (fun r =>
  Return (pages rt r))).

End Found.

(** The iteration over the pages comes to its end. *)
Fixpoint exhausts (it : page_iter) : Prop :=
  match it with
  | StopIteration => True
  | IterRaise _ => False
  | NextPage _ rest => exhausts rest
  end.

(** The texts of the pages whose extraction did not fail, a page
    without text counting for the empty string. *)
Fixpoint extracted_texts (it : page_iter) : list str :=
  match it with
  | NextPage (Return t) rest => or_empty t :: extracted_texts rest
  | NextPage (Raise _) rest => extracted_texts rest
  | _ => []
  end.

(** The text of [{'text': ''}] as [json.dumps] writes it. *)
Definition empty_envelope : str :=
  lit "{" ++ [dquote] ++ lit "text" ++ [dquote] ++ lit ": "
    ++ [dquote; dquote] ++ lit "}".

(* ================================================================= *)
(** ** The other end of standard input *)

Module Caller.

(** [table_b2a_base64]: the character of a six-bit value. *)
Definition table_b2a_base64 (v : N) : char :=
  nth (N.to_nat v)
      (lit "ABCDEFGHIJKLMNOPQRSTUVWXYZabcdefghijklmnopqrstuvwxyz0123456789+/")
      61.

(** [base64.b64encode(data)], what the caller of the script writes to
    its standard input: four characters for every three bytes, the
    last group padded (RFC 4648, section 4). *)
Fixpoint b64encode (data : bytes) : str :=
  match data with
  | [] => []
  | [a] =>
      let x := Byte.to_N a in
      [table_b2a_base64 (N.shiftr x 2);
       table_b2a_base64 (N.shiftl (N.land x 3) 4); 61; 61]
  | [a; b] =>
      let x := Byte.to_N a in
      let y := Byte.to_N b in
      [table_b2a_base64 (N.shiftr x 2);
       table_b2a_base64 (N.lor (N.shiftl (N.land x 3) 4) (N.shiftr y 4));
       table_b2a_base64 (N.shiftl (N.land y 15) 2); 61]
  | a :: b :: c :: rest =>
      let x := Byte.to_N a in
      let y := Byte.to_N b in
      let z := Byte.to_N c in
      table_b2a_base64 (N.shiftr x 2)
      :: table_b2a_base64 (N.lor (N.shiftl (N.land x 3) 4) (N.shiftr y 4))
      :: table_b2a_base64 (N.lor (N.shiftl (N.land y 15) 2) (N.shiftr z 6))
      :: table_b2a_base64 (N.land z 63)
      :: b64encode rest
  end.

End Caller.

(* ================================================================= *)
(** ** Measures used by the properties *)

(** The numbers below [n]. *)
Definition below (n : nat) : list N := map N.of_nat (seq 0 n).

(** The pages an iteration yields before it ends or raises. *)
Fixpoint page_count (it : page_iter) : nat :=
  match it with
  | NextPage _ rest => S (page_count rest)
  | _ => 0
  end.

(** The library calls of the DOCX extractor on [data], up to and
    with the first that raises. *)
Definition docx_calls (rt : Runtime) (data : bytes) : list event :=
  ZipFileNew data ::
  match ZipFile rt data with
  | Raise _ => []
  | Return a =>
      ZipOpen (lit "word/document.xml") ::
      match zip_open rt a (lit "word/document.xml") with
      | Raise _ => []
      | Return d =>
          ZipRead ::
          match zip_read rt d with
          | Raise _ => []
          | Return x => [XmlFromstring x]
          end
      end
  end.

(** The text has no white space at either end. *)
Definition trimmed (s : str) : Prop :=
  match s with
  | [] => True
  | c :: _ => isspace c = false /\ isspace (last s c) = false
  end.

(** What is left of the room for a quad at position [pos]. *)
Definition quad_room (pos : N) : nat :=
  if pos =? 0 then 0 else if pos =? 1 then 3
  else if pos =? 2 then 2 else 1.

(** [s] is [w] with characters that are not base64 put in anywhere:
    ASCII characters that are neither of the alphabet nor the pad. *)
Inductive with_foreign : str -> str -> Prop :=
| foreign_nil : with_foreign [] []
| foreign_keep c w s : with_foreign w s -> with_foreign (c :: w) (c :: s)
| foreign_put c w s :
    c < 128 -> Spec.b64_alpha c = false -> c <> 61 ->
    with_foreign w s -> with_foreign w (c :: s).

(* ================================================================= *)
(** ** The file as Python loads it *)

(** Line 90 of the file, below the call of [main] of lines 88 and 89:
    what is left of the shell command that wrote the file. *)
Definition line_90 : str := lit "EOF && chmod +x server/extract_docs.py".

(** Two [&] in a row. *)
Fixpoint ampersand_pair (s : str) : bool :=
  match s with
  | a :: rest =>
      match rest with
      | b :: _ => ((a =? 38) && (b =? 38)) || ampersand_pair rest
      | [] => false
      end
  | [] => false
  end.

(** The characters that open a string or a comment. *)
Definition opens_string_or_comment (c : char) : bool :=
  (c =? 34) || (c =? 39) || (c =? 35).

(** A line that Python may accept: [&] is an infix operator only, so
    a line with two of them in a row, outside any string or comment,
    is no statement. *)
Definition may_parse (line : str) : bool :=
  existsb opens_string_or_comment line || negb (ampersand_pair line).

(** [python3 server/extract_docs.py ...], the process: Python compiles
    the whole file before it runs any of it, and a line that does not
    parse ends the process with [SyntaxError], nothing run and nothing
    written to standard output; otherwise lines 88 and 89 call
    [main]. *)
Definition script (rt : Runtime) (argv : list str) (stdin : str)
  : M unit :=
  if may_parse line_90 then main rt argv stdin
  else raise (Exn "SyntaxError").

(* ================================================================= *)
(** * Properties *)

(** ** The model on concrete inputs *)

Example b64decode_padded :
  Base64.b64decode (lit "aGVsbG8gd29ybGQ=") = Return (bytes_of "hello world").
Proof. reflexivity. Qed.

Example b64decode_skips_foreign_characters :
  Base64.b64decode (lit "YW Jj!") = Return (bytes_of "abc").
Proof. reflexivity. Qed.

Example b64decode_stops_at_padding :
  Base64.b64decode (lit "YQ==zzzz") = Return (bytes_of "a").
Proof. reflexivity. Qed.

Example b64decode_incorrect_padding :
  Base64.b64decode (lit "YQ=") = Raise (Exn "binascii.Error").
Proof. reflexivity. Qed.

Example b64decode_one_character_over :
  Base64.b64decode (lit "YWJjZ") = Raise (Exn "binascii.Error").
Proof. reflexivity. Qed.

Example b64decode_non_ascii :
  Base64.b64decode (lit "YQ" ++ [233]) = Raise (Exn "ValueError").
Proof. reflexivity. Qed.

(** A run of 10 printable bytes, a byte that is not, a run of 4: the
    first run alone is kept. *)
Example scan_text_drops_short_run :
  scan_text (bytes_of "0123456789" ++ [x00] ++ bytes_of "abcd")
  = lit "0123456789".
Proof. reflexivity. Qed.

Example scan_text_keeps_last_run :
  scan_text (xff :: bytes_of " stream" ++ [x0a] ++ bytes_of "endobj")
  = lit "stream endobj".
Proof. reflexivity. Qed.

Example dumps_text_escapes :
  Json.dumps_text [97; 10; 34; 1; 233; 127]
  = lit "{" ++ [dquote] ++ lit "text" ++ [dquote] ++ lit ": " ++ [dquote]
      ++ lit "a" ++ [backslash] ++ lit "n" ++ [backslash; dquote]
      ++ [backslash] ++ lit "u0001" ++ [233; 127] ++ [dquote] ++ lit "}".
Proof. reflexivity. Qed.

Example parse_nested :
  JsonSyntax.parse
    (lit "{ " ++ [dquote] ++ lit "a" ++ [dquote]
       ++ lit " : [1, -2.5e3, true, null, {}] }")
  = Some (JsonSyntax.JObject
            [(lit "a",
              JsonSyntax.JArray
                [JsonSyntax.JNumber (lit "1");
                 JsonSyntax.JNumber (lit "-2.5e3");
                 JsonSyntax.JBool true; JsonSyntax.JNull;
                 JsonSyntax.JObject []])]).
Proof. reflexivity. Qed.

Example parse_rejects_raw_newline :
  JsonSyntax.parse ([dquote; 97; 10; dquote]) = None.
Proof. reflexivity. Qed.

Example parse_rejects_open_object :
  JsonSyntax.parse
    (lit "{" ++ [dquote] ++ lit "text" ++ [dquote] ++ lit ": "
       ++ [dquote; dquote]) = None.
Proof. reflexivity. Qed.

Example parse_rejects_trailing_text :
  JsonSyntax.parse (empty_envelope ++ lit "{}") = None.
Proof. reflexivity. Qed.

Example main_docx_run :
  main (stub_runtime (Return word_document) (Raise (Exn "ImportError")))
       [lit "extract_docs.py"; MIME_DOCX] (lit "UEsDBA==") initial_world
  = (Return tt,
     World [ZipFileNew (bytes_of "PK" ++ [x03; x04]);
            ZipOpen (lit "word/document.xml"); ZipRead;
            XmlFromstring (bytes_of "PK" ++ [x03; x04])]
           [Json.dumps_text (lit "Hello  world")]).
Proof. reflexivity. Qed.

(** ** Running computations *)

Lemma run_call {A} (ev : event) (r : outcome A) (w : world) :
  call ev r w = (r, World (calls w ++ [ev]) (stdout w)).
Proof. reflexivity. Qed.

Lemma try_except_returns {A} (body : M A) (handler : exn -> M A) w :
  (forall e w1, exists a w2, handler e w1 = (Return a, w2)) ->
  exists a w', try_except body handler w = (Return a, w').
Proof.
  intros Hh. unfold try_except.
  destruct (body w) as [[a | e] w1].
  - now exists a, w1.
  - apply Hh.
Qed.

Lemma is_empty_false {A} (l : list A) : l <> [] -> is_empty l = false.
Proof. destruct l; [congruence | reflexivity]. Qed.

Lemma str_eqb_eq (a b : str) : str_eqb a b = true <-> a = b.
Proof.
  unfold str_eqb. destruct (list_eq_dec N.eq_dec a b); split;
    congruence.
Qed.

Lemma str_eqb_neq (a b : str) : a <> b -> str_eqb a b = false.
Proof.
  intros H. unfold str_eqb.
  destruct (list_eq_dec N.eq_dec a b); congruence.
Qed.

(** ** The DOCX extractor against what the libraries find *)

Lemma extract_docx_empty rt w : extract_docx rt [] w = (Return [], w).
Proof. reflexivity. Qed.

Lemma extract_docx_result rt data w :
  data <> [] ->
  result (extract_docx rt data) w =
    match document_root rt data with
    | Return root =>
        Return (strip (join (lit " ")
                            (fold_left collect_text (iter root) [])))
    | Raise _ => Return []
    end.
Proof.
  intros Hne. unfold extract_docx, document_root, result.
  rewrite (is_empty_false _ Hne).
  unfold try_except, bind, call, log, lift, ret, and_then. simpl.
  destruct (ZipFile rt data) as [a | e]; simpl; [| reflexivity].
  destruct (zip_open rt a _) as [d | e]; simpl; [| reflexivity].
  destruct (zip_read rt d) as [x | e]; simpl; [| reflexivity].
  destruct (ET_fromstring rt x) as [root | e]; reflexivity.
Qed.

(** ** The PDF extractor, tier by tier *)

Lemma extract_pdf_empty rt w : extract_pdf rt [] w = (Return [], w).
Proof. reflexivity. Qed.

Lemma pages_loop_exhausts it : forall chunks w,
  exhausts it ->
  result (pages_loop it chunks) w = Return (chunks ++ extracted_texts it).
Proof.
  induction it as [| e | t rest IH]; intros chunks w Hex; simpl in *.
  - now rewrite app_nil_r.
  - contradiction.
  - unfold result, bind, try_except. rewrite run_call.
    destruct t as [t | e]; simpl.
    + specialize (IH (chunks ++ [or_empty t])
                     (World (calls w ++ [PageExtractText]) (stdout w)) Hex).
      unfold result in IH. rewrite IH. now rewrite <- app_assoc.
    + apply IH, Hex.
Qed.

Lemma pypdf_text_returns rt data w :
  exists r w', pypdf_text rt data w = (Return r, w').
Proof.
  unfold pypdf_text. apply try_except_returns.
  intros e w1. now exists None, w1.
Qed.

Lemma pypdf_text_pages rt data w :
  result (pypdf_text rt data) w =
    match document_pages rt data with
    | Return it =>
        match result (pages_loop it [])
                (World (calls w ++ [ImportPypdf; PdfReaderNew data])
                       (stdout w)) with
        | Return chunks =>
            Return (Some (strip (join newline chunks)))
        | Raise _ => Return None
        end
    | Raise _ => Return None
    end.
Proof.
  unfold pypdf_text, document_pages, result, try_except, bind, and_then.
  rewrite run_call.
  destruct (import_PdfReader rt) as [cls | e]; simpl; [| reflexivity].
  destruct (cls data) as [r | e]; simpl; [| reflexivity].
  rewrite <- app_assoc. simpl.
  destruct (pages_loop (pages rt r) [] _) as [[chunks | e] w1];
    reflexivity.
Qed.

Lemma extract_pdf_result rt data w :
  data <> [] ->
  result (extract_pdf rt data) w =
    match result (pypdf_text rt data) w with
    | Return (Some s) => Return s
    | _ => Return (scan_text data)
    end.
Proof.
  intros Hne. unfold extract_pdf, result.
  rewrite (is_empty_false _ Hne). unfold bind.
  destruct (pypdf_text_returns rt data w) as (r & w' & Hr).
  rewrite Hr. simpl. destruct r; reflexivity.
Qed.

Lemma scan_text_empty : scan_text [] = [].
Proof. reflexivity. Qed.

(** ** Standard output is written by [main] alone *)

Lemma quiet_ret {A} (a : A) : quiet (ret a).
Proof. now intros w. Qed.

Lemma quiet_raise {A} e : quiet (@raise A e).
Proof. now intros w. Qed.

Lemma quiet_lift {A} (r : outcome A) : quiet (lift r).
Proof. now intros w. Qed.

Lemma quiet_log ev : quiet (log ev).
Proof. now intros w. Qed.

Lemma quiet_bind {A B} (m : M A) (k : A -> M B) :
  quiet m -> (forall a, quiet (k a)) -> quiet (bind m k).
Proof.
  intros Hm Hk w. unfold bind. specialize (Hm w).
  destruct (m w) as [[a | e] w1]; simpl in *.
  - now rewrite Hk.
  - exact Hm.
Qed.

Lemma quiet_try_except {A} (m : M A) (h : exn -> M A) :
  quiet m -> (forall e, quiet (h e)) -> quiet (try_except m h).
Proof.
  intros Hm Hh w. unfold try_except. specialize (Hm w).
  destruct (m w) as [[a | e] w1]; simpl in *.
  - exact Hm.
  - now rewrite Hh.
Qed.

Lemma quiet_call {A} ev (r : outcome A) : quiet (call ev r).
Proof.
  apply quiet_bind; [apply quiet_log | intros _; apply quiet_lift].
Qed.

Ltac quiet_steps :=
  repeat first
    [ apply quiet_ret | apply quiet_raise | apply quiet_lift
    | apply quiet_log | apply quiet_call
    | apply quiet_bind; [| intros ?]
    | apply quiet_try_except; [| intros ?] ].

Lemma quiet_read_stdin stdin : quiet (read_stdin stdin).
Proof.
  unfold read_stdin. destruct (is_empty (strip stdin)); quiet_steps.
Qed.

Lemma quiet_extract_docx rt data : quiet (extract_docx rt data).
Proof.
  unfold extract_docx. destruct (is_empty data); quiet_steps.
Qed.

Lemma quiet_pages_loop it : forall chunks, quiet (pages_loop it chunks).
Proof.
  induction it as [| e | t rest IH]; intros chunks; simpl.
  - apply quiet_ret.
  - apply quiet_raise.
  - apply quiet_bind; [quiet_steps | intros a; apply IH].
Qed.

Lemma quiet_pypdf_text rt data : quiet (pypdf_text rt data).
Proof.
  unfold pypdf_text.
  apply quiet_try_except; [| intros e; apply quiet_ret].
  apply quiet_bind; [apply quiet_call | intros cls].
  apply quiet_bind; [apply quiet_call | intros r].
  apply quiet_bind; [apply quiet_pages_loop | intros c; apply quiet_ret].
Qed.

Lemma quiet_extract_pdf rt data : quiet (extract_pdf rt data).
Proof.
  unfold extract_pdf. destruct (is_empty data); [apply quiet_ret |].
  apply quiet_bind; [apply quiet_pypdf_text | intros [s |]];
    quiet_steps.
Qed.

(** ** Nothing escapes the three functions *)

Lemma read_stdin_returns stdin w :
  exists data, read_stdin stdin w = (Return data, w).
Proof.
  unfold read_stdin. destruct (is_empty (strip stdin)).
  - now exists [].
  - unfold try_except, lift, ret.
    destruct (Base64.b64decode (strip stdin)) as [data | e].
    + now exists data.
    + now exists [].
Qed.

Lemma extract_docx_returns rt data w :
  exists s w', extract_docx rt data w = (Return s, w').
Proof.
  unfold extract_docx. destruct (is_empty data).
  - now exists [], w.
  - apply try_except_returns. intros e w1. now exists [], w1.
Qed.

Lemma extract_pdf_returns rt data w :
  exists s w', extract_pdf rt data w = (Return s, w').
Proof.
  unfold extract_pdf. destruct (is_empty data).
  - now exists [], w.
  - unfold bind. destruct (pypdf_text_returns rt data w) as (r & w1 & Hr).
    rewrite Hr. destruct r as [s |].
    + now exists s, w1.
    + eexists _, _. reflexivity.
Qed.

Lemma dispatch_returns rt mime data w :
  exists text w',
    dispatch (extract_docx rt) (extract_pdf rt) mime data w
      = (Return text, w')
    /\ stdout w' = stdout w.
Proof.
  assert (Hq : quiet (dispatch (extract_docx rt) (extract_pdf rt)
                               mime data)).
  { unfold dispatch. destruct (str_eqb mime MIME_DOCX);
      [apply quiet_extract_docx |].
    destruct (str_eqb mime MIME_PDF);
      [apply quiet_extract_pdf | apply quiet_ret]. }
  specialize (Hq w). revert Hq. unfold dispatch.
  destruct (str_eqb mime MIME_DOCX).
  - destruct (extract_docx_returns rt data w) as (s & w' & H).
    rewrite H. intros Hq. now exists s, w'.
  - destruct (str_eqb mime MIME_PDF).
    + destruct (extract_pdf_returns rt data w) as (s & w' & H).
      rewrite H. intros Hq. now exists s, w'.
    + intros Hq. now exists [], w.
Qed.

(** [main] returns, having written once: the envelope of the text
    that the dispatch returned on the decoded input. *)
Lemma main_writes_once rt argv stdin w :
  exists data text w1,
    read_stdin stdin w = (Return data, w)
    /\ dispatch (extract_docx rt) (extract_pdf rt) (mime_arg argv) data w
       = (Return text, w1)
    /\ main rt argv stdin w
       = (Return tt, World (calls w1) (stdout w ++ [Json.dumps_text text])).
Proof.
  destruct (read_stdin_returns stdin w) as (data & Hd).
  destruct (dispatch_returns rt (mime_arg argv) data w)
    as (text & w1 & Ht & Hout).
  exists data, text, w1. repeat split; trivial.
  unfold main, bind. rewrite Hd, Ht. unfold stdout_write.
  now rewrite Hout.
Qed.

Lemma dumps_text_empty : Json.dumps_text [] = empty_envelope.
Proof. reflexivity. Qed.

(* ================================================================= *)
(** * The claims *)

(** Of the function [main] of lines 74 to 85. For every MIME-type
    argument other than the two recognised
    strings, the absent argument included, the dispatch calls neither
    extractor, whatever the two extractors are, and whatever the
    standard input is [main] returns having written the envelope of
    the empty text and nothing else, with no library call made. *)
Theorem unrecognized_mime_yields_empty rt argv stdin w :
  mime_arg argv <> MIME_DOCX ->
  mime_arg argv <> MIME_PDF ->
  (forall docx pdf data, dispatch docx pdf (mime_arg argv) data = ret [])
  /\ main rt argv stdin w
     = (Return tt, World (calls w) (stdout w ++ [empty_envelope])).
Proof.
  intros Hd Hp.
  assert (Hdis : forall docx pdf data,
             dispatch docx pdf (mime_arg argv) data = ret []).
  { intros. unfold dispatch.
    now rewrite (str_eqb_neq _ _ Hd), (str_eqb_neq _ _ Hp). }
  split; [exact Hdis |].
  destruct (read_stdin_returns stdin w) as (data & Hr).
  unfold main, bind. rewrite Hr, Hdis. reflexivity.
Qed.

Lemma unrecognized_mime_yields_empty_witness :
  main bare_runtime [lit "extract_docs.py"] (lit "YWJjZGVmZ2g=")
       initial_world
  = (Return tt, World [] [empty_envelope]).
Proof.
  apply (unrecognized_mime_yields_empty bare_runtime
           [lit "extract_docs.py"] (lit "YWJjZGVmZ2g=") initial_world);
    vm_compute; discriminate.
Defined.

(** C6. On every byte sequence and from every world the DOCX extractor
    and the PDF extractor return a string, no exception leaving them;
    and when the archive does not open, the entry [word/document.xml]
    is missing or unreadable, or its XML does not parse, the DOCX
    extractor returns the empty string. *)
Theorem extractors_never_raise rt data w :
  (exists s, result (extract_docx rt data) w = Return s)
  /\ (exists s, result (extract_pdf rt data) w = Return s)
  /\ (forall e, document_root rt data = Raise e ->
        result (extract_docx rt data) w = Return []).
Proof.
  repeat split.
  - destruct (extract_docx_returns rt data w) as (s & w' & H).
    exists s. unfold result. now rewrite H.
  - destruct (extract_pdf_returns rt data w) as (s & w' & H).
    exists s. unfold result. now rewrite H.
  - intros e He. destruct data as [| b data]; [reflexivity |].
    rewrite extract_docx_result by discriminate. now rewrite He.
Qed.

Lemma extractors_never_raise_witness :
  result (extract_docx bare_runtime (bytes_of "PK not an archive"))
         initial_world = Return [].
Proof.
  apply (proj2 (proj2 (extractors_never_raise bare_runtime
                         (bytes_of "PK not an archive") initial_world))
           (Exn "ParseError")).
  reflexivity.
Defined.



(** Of the functions of lines 24 to 85. When the decoded input is
    empty and the MIME type is one of
    the two recognised values, each extractor returns the empty string
    at once, the world untouched (no archive opened, no reader built,
    no byte scanned), and [main] writes the envelope of the empty
    text. *)
Theorem empty_input_short_circuit rt argv stdin w :
  result (read_stdin stdin) w = Return [] ->
  mime_arg argv = MIME_DOCX \/ mime_arg argv = MIME_PDF ->
  extract_docx rt [] w = (Return [], w)
  /\ extract_pdf rt [] w = (Return [], w)
  /\ main rt argv stdin w
     = (Return tt, World (calls w) (stdout w ++ [empty_envelope])).
Proof.
  intros Hr Hm. repeat split.
  destruct (read_stdin_returns stdin w) as (data & Hd).
  unfold result in Hr. rewrite Hd in Hr. simpl in Hr.
  injection Hr as ->.
  unfold main, bind, dispatch. rewrite Hd.
  destruct Hm as [-> | ->]; reflexivity.
Qed.

Lemma empty_input_short_circuit_witness :
  main bare_runtime [lit "extract_docs.py"; MIME_PDF] [] initial_world
  = (Return tt, World [] [empty_envelope]).
Proof.
  apply (empty_input_short_circuit bare_runtime
           [lit "extract_docs.py"; MIME_PDF] [] initial_world).
  - reflexivity.
  - right. reflexivity.
Defined.

(** ** The byte scan against the maximal runs *)

(** The code's test on a byte is the range 32 to 126, and its [chr]
    gives the character of the byte's value. *)
Lemma printable_byte_in_range b : Spec.in_range b = printable_byte b.
Proof. reflexivity. Qed.

Lemma chr_code_point b : Spec.code_point b = chr b.
Proof. unfold Spec.code_point, chr. symmetry. apply Byte.to_N_via_nat. Qed.

Lemma map_chr_code_point (r : bytes) : map Spec.code_point r = map chr r.
Proof. apply map_ext, chr_code_point. Qed.

Lemma pieces_not_nil data : Spec.pieces data <> [].
Proof.
  destruct data as [| b rest]; cbn [Spec.pieces]; [discriminate |].
  destruct (Spec.in_range b); [| discriminate].
  destruct (Spec.pieces rest); discriminate.
Qed.

Lemma kept_cons r ps :
  Spec.kept (r :: ps)
  = (if (6 <=? List.length r)%nat then [map chr r] else []) ++ Spec.kept ps.
Proof.
  unfold Spec.kept. destruct r as [| b r]; [reflexivity |].
  cbn [filter negb is_empty].
  destruct (6 <=? List.length (b :: r))%nat; [| reflexivity].
  cbn [map app]. now rewrite map_chr_code_point, chr_code_point.
Qed.

Lemma glue_nil data : Spec.glue [] (Spec.pieces data) = Spec.pieces data.
Proof.
  destruct (Spec.pieces data) eqn:Hp; [| reflexivity].
  now destruct (pieces_not_nil data).
Qed.

Lemma glue_snoc rb b rest :
  Spec.glue rb (Spec.glue [b] (Spec.pieces rest))
  = Spec.glue (rb ++ [b]) (Spec.pieces rest).
Proof.
  destruct (Spec.pieces rest) as [| p ps]; unfold Spec.glue.
  - reflexivity.
  - now rewrite <- app_assoc.
Qed.

Lemma pieces_cons b rest :
  Spec.pieces (b :: rest)
  = if printable_byte b then Spec.glue [b] (Spec.pieces rest)
    else [] :: Spec.pieces rest.
Proof.
  cbn [Spec.pieces]. rewrite printable_byte_in_range.
  destruct (printable_byte b); [| reflexivity].
  destruct (Spec.pieces rest) eqn:Hp; [| reflexivity].
  now destruct (pieces_not_nil rest).
Qed.

Lemma scan_invariant data : forall printable rb,
  flush (fold_left scan_byte data (printable, map chr rb))
  = printable ++ Spec.kept (Spec.glue rb (Spec.pieces data)).
Proof.
  induction data as [| b rest IH]; intros printable rb.
  - cbn [fold_left Spec.pieces Spec.glue flush].
    rewrite app_nil_r, kept_cons, length_map.
    destruct (6 <=? List.length rb)%nat;
      [reflexivity | now rewrite !app_nil_r].
  - cbn [fold_left]. rewrite pieces_cons. unfold scan_byte at 2.
    destruct (printable_byte b) eqn:Hb.
    + replace (map chr rb ++ [chr b]) with (map chr (rb ++ [b]))
        by now rewrite map_app.
      now rewrite IH, glue_snoc.
    + rewrite length_map.
      change (@nil char) with (map chr []).
      cbn [Spec.glue]. rewrite app_nil_r, kept_cons.
      destruct (6 <=? List.length rb)%nat; rewrite IH, glue_nil.
      * now rewrite <- app_assoc.
      * reflexivity.
Qed.

(** The fragments of the scan are the qualifying maximal runs. *)
Lemma printable_fragments_runs data :
  printable_fragments data = Spec.qualifying_runs data.
Proof.
  pose proof (scan_invariant data [] []) as H.
  rewrite glue_nil in H. exact H.
Qed.


(** The pieces are the stretches of printable bytes between the bytes
    that are not: woven with those bytes they give the data back, and
    no piece holds a byte outside [32, 126]. *)
Lemma pieces_weave data :
  Spec.weave (Spec.pieces data)
             (filter (fun b => negb (printable_byte b)) data) = data
  /\ Forall (Forall (fun b => printable_byte b = true)) (Spec.pieces data).
Proof.
  induction data as [| b rest [IHw IHf]].
  - split; [reflexivity | repeat constructor].
  - rewrite pieces_cons. cbn [filter].
    destruct (printable_byte b) eqn:Hb; cbn [negb].
    + destruct (Spec.pieces rest) as [| p ps] eqn:Hp.
      * now destruct (pieces_not_nil rest).
      * cbn [Spec.glue app]. inversion_clear IHf. split.
        -- rewrite <- IHw at 2. simpl.
           now destruct (filter _ rest).
        -- constructor; [now constructor | assumption].
    + split; [cbn [Spec.weave app]; now rewrite IHw | now constructor].
Qed.

Lemma qualifying_runs_printable data :
  Forall (Forall (fun c => 32 <= c <= 126)) (Spec.qualifying_runs data).
Proof.
  unfold Spec.qualifying_runs, Spec.maximal_runs.
  apply Forall_map. apply Forall_forall. intros r Hr.
  apply filter_In in Hr as [Hr _]. apply filter_In in Hr as [Hr _].
  destruct (pieces_weave data) as [_ Hf].
  rewrite Forall_forall in Hf. specialize (Hf r Hr).
  apply Forall_map. revert Hf. apply Forall_impl. intros b Hb.
  unfold printable_byte in Hb. apply andb_prop in Hb as [H1 H2].
  rewrite chr_code_point. unfold chr. apply N.leb_le in H1, H2. lia.
Qed.

(** ** Joining and trimming keep what holds of every character *)

Lemma Forall_join (P : char -> Prop) sep parts :
  Forall P sep -> Forall (Forall P) parts -> Forall P (join sep parts).
Proof.
  intros Hs. induction 1 as [| p ps Hp Hps IH]; [constructor |].
  simpl. destruct ps as [| q ps]; [exact Hp |].
  apply Forall_app. split; [exact Hp |].
  apply Forall_app. split; [exact Hs | exact IH].
Qed.

Lemma Forall_lstrip (P : char -> Prop) s :
  Forall P s -> Forall P (lstrip s).
Proof.
  induction 1 as [| c s Hc Hs IH]; simpl; [constructor |].
  destruct (isspace c); [exact IH | now constructor].
Qed.

Lemma Forall_strip (P : char -> Prop) s :
  Forall P s -> Forall P (strip s).
Proof.
  intros H. unfold strip, rstrip.
  apply Forall_rev, Forall_lstrip, Forall_rev, Forall_lstrip, H.
Qed.

Lemma Forall_firstn {A} (P : A -> Prop) n l :
  Forall P l -> Forall P (firstn n l).
Proof.
  intros H. revert n.
  induction H as [| x l Hx Hl IH]; intros [| n]; simpl; constructor;
    auto.
Qed.



(** C9. Every character of the tier 2 text of any byte sequence has a
    code point from 32 to 126: the text holds no newline, no control
    character and no character outside ASCII. *)
Theorem fallback_text_is_printable_ascii data :
  Forall (fun c => 32 <= c <= 126) (scan_text data).
Proof.
  unfold scan_text. rewrite printable_fragments_runs.
  apply Forall_strip, Forall_join.
  - repeat constructor; vm_compute; discriminate.
  - apply Forall_firstn, qualifying_runs_printable.
Qed.

(** ** The loop over the elements against the text runs *)

Lemma collect_text_filter (keep : Element -> bool) l :
  (forall e, keep e = endswith (tag e) (lit "}t") && truthy (text e)) ->
  forall acc,
    fold_left collect_text l acc
    = acc ++ map (fun e => text_of (text e)) (filter keep l).
Proof.
  intros Hk. induction l as [| e l IH]; intros acc; simpl.
  - now rewrite app_nil_r.
  - rewrite IH, Hk. unfold collect_text.
    destruct (endswith (tag e) (lit "}t") && truthy (text e)); simpl.
    + now rewrite <- app_assoc.
    + reflexivity.
Qed.

Lemma existsb_rev {A} (f : A -> bool) l :
  existsb f (rev l) = existsb f l.
Proof.
  induction l as [| x l IH]; simpl; [reflexivity |].
  rewrite existsb_app, IH. simpl. rewrite orb_false_r. apply orb_comm.
Qed.

(** A tag ends with [}t] exactly when it has a namespace prefix and
    its local name is [t]. *)
Lemma endswith_brace_t (t : str) :
  endswith t (lit "}t")
  = Spec.in_namespace t && str_eqb (Spec.local_name t) (lit "t").
Proof.
  unfold endswith, Spec.in_namespace, Spec.local_name.
  rewrite <- (existsb_rev _ t).
  destruct (rev t) as [| c [| d r]]; cbn [startswith rev lit map
    list_ascii_of_string app existsb Spec.before_brace];
    rewrite ?(N.eqb_sym 125).
  - reflexivity.
  - rewrite andb_false_r.
    destruct (N.eqb_spec c 125) as [-> | Hc]; reflexivity.
  - change (N_of_ascii "t") with 116. change (N_of_ascii "}") with 125.
    replace (startswith r []) with true by now destruct r.
    rewrite andb_true_r.
    destruct (N.eqb_spec c 125) as [-> | Hc]; [reflexivity |].
    destruct (N.eqb_spec d 125) as [-> | Hd].
    + cbn [rev app orb andb]. rewrite andb_true_r.
      destruct (N.eqb_spec c 116) as [-> | Hc']; [reflexivity |].
      symmetry. apply str_eqb_neq. congruence.
    + rewrite andb_false_r. symmetry. apply andb_false_intro2.
      apply str_eqb_neq. intros Heq.
      apply (f_equal (@List.length _)) in Heq.
      cbn [rev] in Heq. rewrite !length_app in Heq. simpl in Heq. lia.
Qed.




(** ** What [json.dumps] writes reads back as JSON *)

Lemma lex_chars_escape c t r rest :
  JsonSyntax.lex_chars rest = Some (t, r) ->
  JsonSyntax.lex_chars (Json.escape_char c ++ rest) = Some (c :: t, r).
Proof.
  intros H. unfold Json.escape_char, backslash, dquote.
  destruct (N.eqb_spec c 92) as [-> | H1]; [cbn; now rewrite H |].
  destruct (N.eqb_spec c 34) as [-> | H2]; [cbn; now rewrite H |].
  destruct (N.eqb_spec c 8) as [-> | H3]; [cbn; now rewrite H |].
  destruct (N.eqb_spec c 12) as [-> | H4]; [cbn; now rewrite H |].
  destruct (N.eqb_spec c 10) as [-> | H5]; [cbn; now rewrite H |].
  destruct (N.eqb_spec c 13) as [-> | H6]; [cbn; now rewrite H |].
  destruct (N.eqb_spec c 9) as [-> | H7]; [cbn; now rewrite H |].
  destruct (N.ltb_spec c 32) as [Hlt | Hge].
  - destruct c as [| p];
      [| do 5 (try (destruct p as [p | p |]; try lia))];
      try congruence; cbn; now rewrite H.
  - cbn [app JsonSyntax.lex_chars]. unfold backslash, dquote.
    rewrite (proj2 (N.eqb_neq c 34) H2), (proj2 (N.eqb_neq c 92) H1).
    rewrite (proj2 (N.ltb_ge c 32) Hge). now rewrite H.
Qed.

Lemma lex_chars_encode s r :
  JsonSyntax.lex_chars (flat_map Json.escape_char s ++ dquote :: r)
  = Some (s, r).
Proof.
  induction s as [| c s IH]; [reflexivity |].
  cbn [flat_map]. rewrite <- app_assoc. now apply lex_chars_escape.
Qed.

Lemma dumps_text_shape text :
  Json.dumps_text text
  = lit "{" ++ [dquote] ++ lit "text" ++ [dquote] ++ lit ": "
      ++ [dquote] ++ flat_map Json.escape_char text ++ [dquote; 125].
Proof.
  unfold Json.dumps_text, Json.encode_basestring.
  rewrite <- !app_assoc. reflexivity.
Qed.

Lemma parse_dumps_text text :
  JsonSyntax.parse (Json.dumps_text text)
  = Some (JsonSyntax.JObject [(lit "text", JsonSyntax.JString text)]).
Proof.
  rewrite dumps_text_shape. unfold JsonSyntax.parse.
  cbn. now rewrite lex_chars_encode.
Qed.

(** Of the function [main] of lines 74 to 85. Whatever the argument
    list, the standard input and the
    libraries do, [main] returns and has written to standard output
    once: the text of a JSON object with the single member [text],
    whose value is a string, the text written being the brace, the key
    and the string's characters between quotes, each character from
    U+0080 up standing for itself. *)
Theorem main_writes_one_text_object rt argv stdin w :
  exists text w',
    main rt argv stdin w = (Return tt, w')
    /\ stdout w' = stdout w ++ [Json.dumps_text text]
    /\ JsonSyntax.parse (Json.dumps_text text)
       = Some (JsonSyntax.JObject [(lit "text", JsonSyntax.JString text)])
    /\ Json.dumps_text text
       = lit "{" ++ [dquote] ++ lit "text" ++ [dquote] ++ lit ": "
           ++ [dquote] ++ flat_map Json.escape_char text ++ [dquote; 125]
    /\ forall c, Json.escape_char (128 + c) = [128 + c].
Proof.
  destruct (main_writes_once rt argv stdin w)
    as (data & text & w1 & _ & _ & Hmain).
  exists text. eexists. split; [exact Hmain |].
  split; [reflexivity |].
  split; [apply parse_dumps_text |].
  split; [apply dumps_text_shape |].
  intros c. unfold Json.escape_char, backslash, dquote.
  repeat match goal with
         | |- context [?a =? ?b] =>
             destruct (N.eqb_spec a b); [lia |]
         end.
  destruct (N.ltb_spec (128 + c) 32); [lia | reflexivity].
Qed.

(** ** Without pypdf the text is a function of the input *)

Lemma read_stdin_result stdin w1 w2 :
  result (read_stdin stdin) w1 = result (read_stdin stdin) w2.
Proof.
  unfold read_stdin, result. destruct (is_empty (strip stdin));
    [reflexivity |].
  unfold try_except, lift.
  destruct (Base64.b64decode (strip stdin)); reflexivity.
Qed.

Lemma pypdf_text_unavailable rt data w e :
  import_PdfReader rt = Raise e ->
  result (pypdf_text rt data) w = Return None.
Proof.
  intros Hi. rewrite pypdf_text_pages. unfold document_pages, and_then.
  now rewrite Hi.
Qed.

Lemma dispatch_result_without_pypdf rt mime data w e :
  import_PdfReader rt = Raise e ->
  result (dispatch (extract_docx rt) (extract_pdf rt) mime data) w
  = if str_eqb mime MIME_DOCX then
      if is_empty data then Return []
      else match document_root rt data with
           | Return root =>
               Return (strip (join (lit " ")
                         (fold_left collect_text (iter root) [])))
           | Raise _ => Return []
           end
    else if str_eqb mime MIME_PDF then Return (scan_text data)
    else Return [].
Proof.
  intros Hi. unfold dispatch.
  destruct (str_eqb mime MIME_DOCX).
  - destruct data as [| b data]; [reflexivity |].
    now rewrite extract_docx_result.
  - destruct (str_eqb mime MIME_PDF); [| reflexivity].
    destruct data as [| b data]; [reflexivity |].
    rewrite extract_pdf_result by discriminate.
    now rewrite (pypdf_text_unavailable rt _ w e Hi).
Qed.

(** Of the function [main] of lines 74 to 85. When pypdf cannot be
    imported, two runs of [main] on the same argument
    list and the same standard input, under runtimes whose archive and
    XML libraries find the same documents, from any two worlds and
    whatever the import error, both return having written the same
    one text. *)
Theorem deterministic_without_pypdf rt1 rt2 e1 e2 argv stdin w1 w2 :
  import_PdfReader rt1 = Raise e1 ->
  import_PdfReader rt2 = Raise e2 ->
  (forall data, document_root rt1 data = document_root rt2 data) ->
  exists out,
    result (main rt1 argv stdin) w1 = Return tt
    /\ result (main rt2 argv stdin) w2 = Return tt
    /\ stdout (final (main rt1 argv stdin) w1) = stdout w1 ++ [out]
    /\ stdout (final (main rt2 argv stdin) w2) = stdout w2 ++ [out].
Proof.
  intros H1 H2 Hdoc.
  destruct (main_writes_once rt1 argv stdin w1)
    as (d1 & t1 & w1' & Hr1 & Hd1 & Hm1).
  destruct (main_writes_once rt2 argv stdin w2)
    as (d2 & t2 & w2' & Hr2 & Hd2 & Hm2).
  assert (Hd : d1 = d2).
  { pose proof (read_stdin_result stdin w1 w2) as H.
    unfold result in H. rewrite Hr1, Hr2 in H. simpl in H. congruence. }
  subst d2.
  assert (Ht : t1 = t2).
  { pose proof (dispatch_result_without_pypdf rt1 (mime_arg argv) d1
                  w1 e1 H1) as E1.
    pose proof (dispatch_result_without_pypdf rt2 (mime_arg argv) d1
                  w2 e2 H2) as E2.
    unfold result in E1, E2. rewrite Hd1 in E1. rewrite Hd2 in E2.
    simpl in E1, E2. rewrite <- Hdoc in E2. congruence. }
  subst t2. exists (Json.dumps_text t1).
  unfold result, final. rewrite Hm1, Hm2. repeat split.
Qed.

Lemma deterministic_without_pypdf_witness :
  exists out,
    result (main bare_runtime [lit "extract_docs.py"; MIME_PDF]
                 (lit "JVBERi0xLjQgaGVsbG8=")) initial_world = Return tt
    /\ result (main (stub_runtime (Raise (Exn "ParseError"))
                                  (Raise (Exn "ModuleNotFoundError")))
                    [lit "extract_docs.py"; MIME_PDF]
                    (lit "JVBERi0xLjQgaGVsbG8="))
              (World [ZipRead] [lit "earlier"]) = Return tt
    /\ stdout (final (main bare_runtime
                           [lit "extract_docs.py"; MIME_PDF]
                           (lit "JVBERi0xLjQgaGVsbG8=")) initial_world)
       = stdout initial_world ++ [out]
    /\ stdout (final (main (stub_runtime (Raise (Exn "ParseError"))
                                  (Raise (Exn "ModuleNotFoundError")))
                           [lit "extract_docs.py"; MIME_PDF]
                           (lit "JVBERi0xLjQgaGVsbG8="))
                     (World [ZipRead] [lit "earlier"]))
       = stdout (World [ZipRead] [lit "earlier"]) ++ [out].
Proof.
  apply (deterministic_without_pypdf bare_runtime
           (stub_runtime (Raise (Exn "ParseError"))
                         (Raise (Exn "ModuleNotFoundError")))
           (Exn "ImportError") (Exn "ModuleNotFoundError")).
  - reflexivity.
  - reflexivity.
  - intros data. reflexivity.
Defined.

(** ** The lenient decoder and well-formed base64 *)

Lemma well_formed_from_0 s :
  Spec.well_formed_from 0 s = Spec.well_formed_base64 s.
Proof.
  assert (H : forall n s, (List.length s <= n)%nat ->
            Spec.well_formed_from 0 s = Spec.well_formed_base64 s).
  { clear s. induction n as [| n IH]; intros s Hn.
    - destruct s; [reflexivity | simpl in Hn; lia].
    - destruct s as [| a [| b [| c [| d rest]]]]; cbn.
      + reflexivity.
      + destruct (Spec.b64_alpha a); [reflexivity |].
        now destruct (Spec.b64_pad a).
      + destruct (Spec.b64_alpha a);
          [| now destruct (Spec.b64_pad a)].
        destruct (Spec.b64_alpha b); [reflexivity |].
        now destruct (Spec.b64_pad b).
      + destruct (Spec.b64_alpha a);
          [| now destruct (Spec.b64_pad a)].
        destruct (Spec.b64_alpha b);
          [| now destruct (Spec.b64_pad b)].
        destruct (Spec.b64_alpha c); [reflexivity |].
        now destruct (Spec.b64_pad c).
      + rewrite (IH rest) by (simpl in Hn; lia).
        destruct (Spec.b64_alpha a), (Spec.b64_alpha b),
          (Spec.b64_alpha c), (Spec.b64_alpha d), (Spec.b64_pad a),
          (Spec.b64_pad b), (Spec.b64_pad c), (Spec.b64_pad d), rest;
          reflexivity. }
  apply (H (List.length s)). lia.
Qed.

Lemma table_alpha b v :
  Base64.table_a2b_base64 b = Some v ->
  Spec.b64_alpha (Byte.to_N b) = true /\ Byte.to_N b <> 61.
Proof.
  unfold Base64.table_a2b_base64, Spec.b64_alpha.
  set (c := Byte.to_N b). intros H.
  destruct ((65 <=? c) && (c <=? 90)) eqn:E1.
  { apply andb_prop in E1 as [H1 H2]. apply N.leb_le in H1, H2.
    split; [reflexivity | lia]. }
  destruct ((97 <=? c) && (c <=? 122)) eqn:E2.
  { apply andb_prop in E2 as [H1 H2]. apply N.leb_le in H1, H2.
    split; [reflexivity | lia]. }
  destruct ((48 <=? c) && (c <=? 57)) eqn:E3.
  { apply andb_prop in E3 as [H1 H2]. apply N.leb_le in H1, H2.
    split; [reflexivity | lia]. }
  destruct (N.eqb_spec c 43) as [-> | E4]; [split; [reflexivity | lia] |].
  destruct (N.eqb_spec c 47) as [-> | E5]; [split; [reflexivity | lia] |].
  discriminate.
Qed.

Lemma table_not_alpha b :
  Base64.table_a2b_base64 b = None ->
  Spec.b64_alpha (Byte.to_N b) = false.
Proof.
  unfold Base64.table_a2b_base64, Spec.b64_alpha.
  set (c := Byte.to_N b). intros H.
  destruct ((65 <=? c) && (c <=? 90)); [discriminate |].
  destruct ((97 <=? c) && (c <=? 122)); [discriminate |].
  destruct ((48 <=? c) && (c <=? 57)); [discriminate |].
  destruct (c =? 43); [discriminate |].
  destruct (c =? 47); [discriminate | reflexivity].
Qed.

(** One turn of the loop on a character of the alphabet does not look
    at the count of pads. *)
Lemma loop_alpha_pads b v rest qp lc p1 p2 bin :
  Base64.table_a2b_base64 b = Some v ->
  Base64.a2b_base64_loop (b :: rest) qp lc p1 bin
  = Base64.a2b_base64_loop (b :: rest) qp lc p2 bin.
Proof.
  intros Hv. destruct (table_alpha b v Hv) as [_ Hne].
  cbn [Base64.a2b_base64_loop]. unfold Base64.BASE64_PAD.
  rewrite (proj2 (N.eqb_neq _ _) Hne), Hv. reflexivity.
Qed.

Lemma subsequence_nil {A} (s : list A) : Spec.subsequence [] s.
Proof. induction s; now constructor. Qed.

Lemma loop_canonical data : forall qp lc pads bin out,
  qp <= 3 ->
  pads = 0 \/ (pads = 1 /\ qp = 2) ->
  Base64.a2b_base64_loop data qp lc pads bin = Return out ->
  exists wb,
    Spec.subsequence wb data
    /\ Base64.a2b_base64_loop wb qp lc pads bin = Return out
    /\ (if pads =? 0
        then Spec.well_formed_from (N.to_nat qp) (map Byte.to_N wb) = true
        else Spec.well_formed_from 2 (61 :: map Byte.to_N wb) = true
             \/ (Spec.well_formed_from 2 (map Byte.to_N wb) = true
                 /\ exists a r v, wb = a :: r
                      /\ Base64.table_a2b_base64 a = Some v)).
Proof.
  induction data as [| c rest IH]; intros qp lc pads bin out Hqp Hpads H.
  - exists []. split; [constructor |]. split; [exact H |].
    cbn [Base64.a2b_base64_loop] in H.
    destruct (N.eqb_spec qp 0) as [-> | Hne]; [| discriminate].
    destruct Hpads as [-> | [_ Hc]]; [reflexivity | discriminate].
  - cbn [Base64.a2b_base64_loop] in H. unfold Base64.BASE64_PAD in H.
    destruct (N.eqb_spec (Byte.to_N c) 61) as [Hpad | Hnp].
    + (* a pad *)
      destruct (N.leb_spec 2 qp) as [H2 | H2].
      * destruct (N.leb_spec 4 (qp + (pads + 1))) as [H4 | H4].
        -- (* the pad that ends the decoding *)
           exists [c].
           split; [apply Spec.sub_keep, subsequence_nil |].
           assert (Hs : Base64.a2b_base64_loop [c] qp lc pads bin
                        = Return out).
           { cbn [Base64.a2b_base64_loop]. unfold Base64.BASE64_PAD.
             rewrite (proj2 (N.eqb_eq _ _) Hpad).
             rewrite (proj2 (N.leb_le _ _) H2).
             now rewrite (proj2 (N.leb_le _ _) H4). }
           split; [exact Hs |].
           destruct Hpads as [-> | [-> ->]].
           ++ assert (qp = 3) as -> by lia. cbn. now rewrite Hpad.
           ++ cbn. rewrite Hpad. now left.
        -- (* a first pad at position 2 *)
           assert (qp = 2) as -> by lia.
           assert (pads = 0) as -> by lia.
           destruct (IH 2 lc 1 bin out ltac:(lia) ltac:(right; lia) H)
             as (wb & Hsub & Hrun & Hwf).
           cbn [N.eqb] in Hwf. destruct Hwf as [Hwf | [Hwf Hhd]].
           ++ exists (c :: wb). split; [now constructor |]. split.
              ** cbn [Base64.a2b_base64_loop]. unfold Base64.BASE64_PAD.
                 now rewrite (proj2 (N.eqb_eq _ _) Hpad).
              ** cbn [N.eqb N.to_nat Pos.to_nat Pos.iter_op Nat.add map].
                 now rewrite Hpad.
           ++ destruct Hhd as (a & r & v & -> & Hv).
              exists (a :: r). split; [now constructor |]. split.
              ** now rewrite (loop_alpha_pads a v r 2 lc 0 1 bin Hv).
              ** exact Hwf.
      * (* a pad before position 2 is skipped *)
        assert (pads = 0) as -> by lia.
        destruct (IH qp lc 0 bin out Hqp ltac:(now left) H)
          as (wb & Hsub & Hrun & Hwf).
        exists wb. split; [now constructor |]. split; assumption.
    + destruct (Base64.table_a2b_base64 c) as [v |] eqn:Hv.
      * (* a character of the alphabet *)
        destruct (table_alpha c v Hv) as [Ha _].
        assert (Hstep : forall wb,
          Base64.a2b_base64_loop (c :: wb) qp lc pads bin
          = if qp =? 0 then Base64.a2b_base64_loop wb 1 v 0 bin
            else if qp =? 1 then
              Base64.a2b_base64_loop wb 2 (N.land v 15) 0
                (bin ++ [Base64.u8 (N.lor (N.shiftl lc 2) (N.shiftr v 4))])
            else if qp =? 2 then
              Base64.a2b_base64_loop wb 3 (N.land v 3) 0
                (bin ++ [Base64.u8 (N.lor (N.shiftl lc 4) (N.shiftr v 2))])
            else
              Base64.a2b_base64_loop wb 0 0 0
                (bin ++ [Base64.u8 (N.lor (N.shiftl lc 6) v)])).
        { intros wb. cbn [Base64.a2b_base64_loop].
          unfold Base64.BASE64_PAD.
          now rewrite (proj2 (N.eqb_neq _ _) Hnp), Hv. }
        assert (Hcases : qp = 0 \/ qp = 1 \/ qp = 2 \/ qp = 3) by lia.
        destruct Hcases as [-> | [-> | [-> | ->]]]; cbn [N.eqb Pos.eqb] in H;
          match type of H with
          | Base64.a2b_base64_loop rest ?q ?l 0 ?b = _ =>
              destruct (IH q l 0 b out ltac:(lia) ltac:(now left) H)
                as (wb & Hsub & Hrun & Hwf)
          end;
          exists (c :: wb);
          (split; [now constructor |]);
          (split; [rewrite Hstep; exact Hrun |]);
          cbn [N.eqb] in Hwf;
          destruct Hpads as [-> | [-> Hq]]; try discriminate;
          cbn [N.eqb map]; cbn [Spec.well_formed_from]; rewrite ?Ha;
          try exact Hwf.
        right. split; [exact Hwf | now exists c, wb, v].
      * (* any other character is skipped *)
        destruct (IH qp lc pads bin out Hqp Hpads H)
          as (wb & Hsub & Hrun & Hwf).
        exists wb. split; [now constructor |]. split; assumption.
Qed.

Lemma to_N_byte_of_N c : c < 256 -> Byte.to_N (Base64.byte_of_N c) = c.
Proof.
  intros Hc. unfold Base64.byte_of_N. rewrite N.mod_small by exact Hc.
  destruct (Byte.of_N c) as [b |] eqn:Hb.
  - now apply Byte.to_of_N.
  - apply Byte.of_N_None_iff in Hb. lia.
Qed.

Lemma byte_of_N_to_N b : Base64.byte_of_N (Byte.to_N b) = b.
Proof.
  unfold Base64.byte_of_N.
  rewrite N.mod_small by (pose proof (Byte.to_N_bounded b); lia).
  now rewrite Byte.of_to_N.
Qed.

Lemma encode_ascii_chars s : forall bs,
  Base64.encode_ascii s = Return bs -> map Byte.to_N bs = s.
Proof.
  induction s as [| c s IH]; simpl; intros bs H.
  - now injection H as <-.
  - destruct (N.ltb_spec c 128) as [Hc | Hc]; [| discriminate].
    destruct (Base64.encode_ascii s) as [bs' | e]; [| discriminate].
    injection H as <-. simpl.
    rewrite to_N_byte_of_N by lia. now rewrite (IH bs').
Qed.

Lemma encode_ascii_bytes bs :
  Forall (fun c => c < 128) (map Byte.to_N bs) ->
  Base64.encode_ascii (map Byte.to_N bs) = Return bs.
Proof.
  induction bs as [| b bs IH]; simpl; intros H; [reflexivity |].
  inversion_clear H as [| ? ? Hb Hbs].
  rewrite (proj2 (N.ltb_lt _ _) Hb), (IH Hbs).
  now rewrite byte_of_N_to_N.
Qed.

Lemma b64_alpha_ascii c : Spec.b64_alpha c = true -> c < 128.
Proof.
  unfold Spec.b64_alpha. intros H.
  repeat match type of H with
         | (_ || _) = true => apply orb_prop in H as [H | H]
         end;
    try (apply andb_prop in H as [_ H]; apply N.leb_le in H; lia);
    apply N.eqb_eq in H; lia.
Qed.

Lemma well_formed_from_ascii s : forall pos,
  Spec.well_formed_from pos s = true -> Forall (fun c => c < 128) s.
Proof.
  induction s as [| c s IH]; intros pos H; [constructor |].
  cbn [Spec.well_formed_from] in H.
  destruct (Spec.b64_alpha c) eqn:Ha.
  - constructor; [now apply b64_alpha_ascii | eapply IH, H].
  - unfold Spec.b64_pad in H.
    destruct (N.eqb_spec c 61) as [-> | Hc]; [| discriminate].
    constructor; [lia |].
    destruct pos as [| [| [| [| pos]]]]; try discriminate.
    + destruct s as [| d [| ? ?]]; try discriminate.
      apply N.eqb_eq in H as ->. repeat constructor.
    + destruct s; [constructor | discriminate].
Qed.

Lemma subsequence_map {A B} (f : A -> B) w s :
  Spec.subsequence w s -> Spec.subsequence (map f w) (map f s).
Proof. induction 1; simpl; now constructor. Qed.

(** What the decoder returns is the decoding of a well-formed base64
    text left after deleting characters of its argument. *)
Lemma b64decode_canonical s data :
  Base64.b64decode s = Return data ->
  exists text,
    Spec.subsequence text s
    /\ Spec.well_formed_base64 text = true
    /\ Base64.b64decode text = Return data.
Proof.
  unfold Base64.b64decode at 1.
  destruct (Base64.encode_ascii s) as [bs |] eqn:Hbs; [| discriminate].
  intros H. unfold Base64.a2b_base64 in H.
  destruct (loop_canonical bs 0 0 0 [] data ltac:(lia) ltac:(now left) H)
    as (wb & Hsub & Hrun & Hwf).
  cbn [N.eqb N.to_nat] in Hwf.
  exists (map Byte.to_N wb). repeat split.
  - rewrite <- (encode_ascii_chars s bs Hbs). now apply subsequence_map.
  - now rewrite <- well_formed_from_0.
  - unfold Base64.b64decode.
    rewrite encode_ascii_bytes by (eapply well_formed_from_ascii, Hwf).
    exact Hrun.
Qed.

(** C2, as stated, fails: [YWJj!] is not well-formed base64 and the
    decoder returns the three bytes [abc] for it. *)
Lemma read_stdin_decodes_malformed :
  Spec.well_formed_base64 (strip (lit "YWJj!")) = false
  /\ read_stdin (lit "YWJj!") initial_world
     = (Return (bytes_of "abc"), initial_world)
  /\ bytes_of "abc" <> [].
Proof. repeat split. discriminate. Qed.

(* ================================================================= *)
(** * Further properties of the code *)

(** ** Trimming *)

Lemma lstrip_spaces pre s :
  Forall (fun c => isspace c = true) pre -> lstrip (pre ++ s) = lstrip s.
Proof.
  induction 1 as [| c pre Hc Hpre IH]; [reflexivity |].
  simpl. now rewrite Hc.
Qed.

Lemma lstrip_all_space s :
  Forall (fun c => isspace c = true) s <-> lstrip s = [].
Proof.
  split.
  - intros H. rewrite <- (app_nil_r s). now rewrite lstrip_spaces.
  - induction s as [| c s IH]; [constructor |].
    simpl. destruct (isspace c) eqn:Hc; [| discriminate].
    intros H. constructor; auto.
Qed.

Lemma lstrip_app_keep s post :
  lstrip s <> [] -> lstrip (s ++ post) = lstrip s ++ post.
Proof.
  induction s as [| c s IH]; simpl; [congruence |].
  destruct (isspace c); auto.
Qed.

Lemma rstrip_spaces s post :
  Forall (fun c => isspace c = true) post -> rstrip (s ++ post) = rstrip s.
Proof.
  intros H. unfold rstrip. rewrite rev_app_distr.
  now rewrite lstrip_spaces by now apply Forall_rev.
Qed.

Lemma strip_surrounded pre s post :
  Forall (fun c => isspace c = true) pre ->
  Forall (fun c => isspace c = true) post ->
  strip (pre ++ s ++ post) = strip s.
Proof.
  intros Hpre Hpost. unfold strip. rewrite lstrip_spaces by assumption.
  destruct (lstrip s) as [| c t] eqn:Hs.
  - apply lstrip_all_space in Hs.
    assert (H : lstrip (s ++ post) = []).
    { apply lstrip_all_space, Forall_app. now split. }
    now rewrite H.
  - rewrite lstrip_app_keep by congruence.
    rewrite Hs. now apply rstrip_spaces.
Qed.

Lemma lstrip_head s :
  match lstrip s with
  | [] => True
  | c :: _ => isspace c = false
  end.
Proof.
  induction s as [| c s IH]; simpl; [exact I |].
  destruct (isspace c) eqn:Hc; [exact IH | exact Hc].
Qed.

Lemma lstrip_fixed s :
  match s with [] => True | c :: _ => isspace c = false end ->
  lstrip s = s.
Proof. destruct s as [| c s]; simpl; [easy | now intros ->]. Qed.

(** Trimming on the right leaves a prefix. *)
Lemma rstrip_prefix s : exists post, s = rstrip s ++ post.
Proof.
  unfold rstrip.
  assert (H : forall t, exists pre, t = pre ++ lstrip t).
  { induction t as [| c t [pre IH]]; [now exists [] |].
    simpl. destruct (isspace c).
    - exists (c :: pre). simpl. now rewrite <- IH.
    - now exists []. }
  destruct (H (rev s)) as (pre & Hpre). exists (rev pre).
  rewrite <- rev_app_distr, <- Hpre. now rewrite rev_involutive.
Qed.

Lemma last_rev_head {A} (c : A) t d : last (rev (c :: t)) d = c.
Proof. simpl. now rewrite last_last. Qed.

Lemma strip_trimmed s : trimmed (strip s).
Proof.
  unfold trimmed. destruct (strip s) as [| c t] eqn:Hst; [exact I |].
  unfold strip in Hst. split.
  - destruct (rstrip_prefix (lstrip s)) as (post & Hpost).
    rewrite Hst in Hpost. pose proof (lstrip_head s) as Hh.
    rewrite Hpost in Hh. exact Hh.
  - unfold rstrip in Hst.
    pose proof (lstrip_head (rev (lstrip s))) as Hh.
    destruct (lstrip (rev (lstrip s))) as [| d u] eqn:Hu;
      [discriminate |].
    rewrite <- Hst. now rewrite last_rev_head.
Qed.

Lemma trimmed_strip s : trimmed s -> strip s = s.
Proof.
  destruct s as [| c t]; [reflexivity |]. intros [Hc Hl].
  unfold strip. rewrite lstrip_fixed by exact Hc.
  unfold rstrip. rewrite lstrip_fixed; [apply rev_involutive |].
  destruct (rev (c :: t)) as [| d u] eqn:Hr; [exact I |].
  assert (Hd : last (c :: t) c = d).
  { rewrite <- (rev_involutive (c :: t)), Hr. apply last_rev_head. }
  now rewrite <- Hd.
Qed.

(** ** Decoding what the caller encoded *)

Example b64encode_samples :
  Caller.b64encode (bytes_of "a") = lit "YQ=="
  /\ Caller.b64encode (bytes_of "ab") = lit "YWI="
  /\ Caller.b64encode (bytes_of "abc") = lit "YWJj"
  /\ Caller.b64encode [xff; xfe; xfd; x00] = lit "//79AA==".
Proof. repeat split. Qed.

Lemma below_forallb (P : N -> bool) n :
  forallb P (below n) = true ->
  forall v, v < N.of_nat n -> P v = true.
Proof.
  intros H v Hv. rewrite forallb_forall in H. apply H.
  unfold below. apply in_map_iff. exists (N.to_nat v).
  split; [apply N2Nat.id | apply in_seq; lia].
Qed.

Lemma below2_forallb (P : N -> N -> bool) n :
  forallb (fun x => forallb (P x) (below n)) (below n) = true ->
  forall x y, x < N.of_nat n -> y < N.of_nat n -> P x y = true.
Proof.
  intros H x y Hx Hy.
  pose proof (below_forallb _ n H x Hx) as Hrow.
  exact (below_forallb _ n Hrow y Hy).
Qed.

Ltac bool_cases_below :=
  match goal with
  | Hx : ?x < ?n, Hy : ?y < ?n |- ?b = true =>
      let P := eval pattern x, y in b in
      match P with
      | ?Q x y =>
          exact (below2_forallb Q (N.to_nat n)
                   ltac:(vm_compute; reflexivity) x y Hx Hy)
      end
  | Hx : ?x < ?n |- ?b = true =>
      let P := eval pattern x in b in
      match P with
      | ?Q x =>
          exact (below_forallb Q (N.to_nat n)
                   ltac:(vm_compute; reflexivity) x Hx)
      end
  end.

Ltac by_cases_below :=
  match goal with
  | |- _ < _ => apply N.ltb_lt; bool_cases_below
  | |- _ = _ => apply N.eqb_eq; bool_cases_below
  end.

Lemma sextet_char v :
  v < 64 ->
  Base64.table_a2b_base64 (Base64.byte_of_N (Caller.table_b2a_base64 v))
  = Some v
  /\ Caller.table_b2a_base64 v < 128
  /\ Spec.b64_alpha (Caller.table_b2a_base64 v) = true
  /\ isspace (Caller.table_b2a_base64 v) = false.
Proof.
  intros Hv.
  pose (P := fun v =>
    match Base64.table_a2b_base64
            (Base64.byte_of_N (Caller.table_b2a_base64 v)) with
    | Some u => u =? v
    | None => false
    end
    && (Caller.table_b2a_base64 v <? 128)
    && Spec.b64_alpha (Caller.table_b2a_base64 v)
    && negb (isspace (Caller.table_b2a_base64 v))).
  assert (H : P v = true).
  { apply (below_forallb P 64); [vm_compute; reflexivity | exact Hv]. }
  unfold P in H.
  apply andb_prop in H as [H H4]. apply andb_prop in H as [H H3].
  apply andb_prop in H as [H1 H2].
  repeat split.
  - destruct (Base64.table_a2b_base64 _) as [u |]; [| discriminate].
    apply N.eqb_eq in H1. now subst.
  - now apply N.ltb_lt.
  - exact H3.
  - now apply negb_true_iff.
Qed.

Section Sextets.

Variables x y z : N.
Hypothesis Hx : x < 256.
Hypothesis Hy : y < 256.
Hypothesis Hz : z < 256.

Let s0 := N.shiftr x 2.
Let s1 := N.lor (N.shiftl (N.land x 3) 4) (N.shiftr y 4).
Let s2 := N.lor (N.shiftl (N.land y 15) 2) (N.shiftr z 6).
Let s3 := N.land z 63.

Lemma sextet0_lt : s0 < 64.
Proof.
  unfold s0. clear Hy Hz. by_cases_below.
Qed.

Lemma sextet1_lt : s1 < 64.
Proof.
  unfold s1. clear Hz. by_cases_below.
Qed.

Lemma sextet1_alone_lt : N.shiftl (N.land x 3) 4 < 64.
Proof.
  clear Hy Hz. by_cases_below.
Qed.

Lemma sextet2_lt : s2 < 64.
Proof.
  unfold s2. clear Hx. by_cases_below.
Qed.

Lemma sextet2_alone_lt : N.shiftl (N.land y 15) 2 < 64.
Proof.
  clear Hx Hz. by_cases_below.
Qed.

Lemma sextet3_lt : s3 < 64.
Proof.
  unfold s3. clear Hx Hy. by_cases_below.
Qed.

Lemma octet0 :
  N.land (N.lor (N.shiftl s0 2) (N.shiftr s1 4)) 255 = x.
Proof. unfold s0, s1. clear Hz. by_cases_below. Qed.

Lemma octet0_alone :
  N.land (N.lor (N.shiftl s0 2)
                (N.shiftr (N.shiftl (N.land x 3) 4) 4)) 255 = x.
Proof. unfold s0. clear Hy Hz. by_cases_below. Qed.

Lemma octet1 :
  N.land (N.lor (N.shiftl (N.land s1 15) 4) (N.shiftr s2 2)) 255 = y.
Proof.
  assert (H1 : N.land s1 15 = N.shiftr y 4).
  { unfold s1. clear Hz. by_cases_below. }
  rewrite H1. unfold s2. clear Hx H1. by_cases_below.
Qed.

Lemma octet1_alone :
  N.land (N.lor (N.shiftl (N.land s1 15) 4)
                (N.shiftr (N.shiftl (N.land y 15) 2) 2)) 255 = y.
Proof.
  assert (H1 : N.land s1 15 = N.shiftr y 4).
  { unfold s1. clear Hz. by_cases_below. }
  rewrite H1. clear Hx Hz H1. by_cases_below.
Qed.

Lemma octet2 :
  N.land (N.lor (N.shiftl (N.land s2 3) 6) s3) 255 = z.
Proof.
  assert (H2 : N.land s2 3 = N.shiftr z 6).
  { unfold s2. clear Hx. by_cases_below. }
  rewrite H2. unfold s3. clear Hx Hy H2. by_cases_below.
Qed.

End Sextets.

Lemma to_N_lt_256 (b : byte) : Byte.to_N b < 256.
Proof. pose proof (Byte.to_N_bounded b). lia. Qed.

Lemma u8_octet n (b : byte) :
  N.land n 255 = Byte.to_N b -> Base64.u8 n = b.
Proof. intros H. unfold Base64.u8. rewrite H. apply byte_of_N_to_N. Qed.

(** One turn of the loop on the character of a six-bit value. *)
Lemma loop_sextet v rest qp lc pads bin :
  v < 64 ->
  Base64.a2b_base64_loop
    (Base64.byte_of_N (Caller.table_b2a_base64 v) :: rest) qp lc pads bin
  = if qp =? 0 then Base64.a2b_base64_loop rest 1 v 0 bin
    else if qp =? 1 then
      Base64.a2b_base64_loop rest 2 (N.land v 15) 0
        (bin ++ [Base64.u8 (N.lor (N.shiftl lc 2) (N.shiftr v 4))])
    else if qp =? 2 then
      Base64.a2b_base64_loop rest 3 (N.land v 3) 0
        (bin ++ [Base64.u8 (N.lor (N.shiftl lc 4) (N.shiftr v 2))])
    else
      Base64.a2b_base64_loop rest 0 0 0
        (bin ++ [Base64.u8 (N.lor (N.shiftl lc 6) v)]).
Proof.
  intros Hv. destruct (sextet_char v Hv) as (Ht & _).
  destruct (table_alpha _ _ Ht) as [_ Hne].
  cbn [Base64.a2b_base64_loop]. unfold Base64.BASE64_PAD.
  now rewrite (proj2 (N.eqb_neq _ _) Hne), Ht.
Qed.

Lemma loop_encoded data : forall bin,
  Base64.a2b_base64_loop
    (map Base64.byte_of_N (Caller.b64encode data)) 0 0 0 bin
  = Return (bin ++ data).
Proof.
  assert (H : forall n data, (List.length data <= n)%nat -> forall bin,
            Base64.a2b_base64_loop
              (map Base64.byte_of_N (Caller.b64encode data)) 0 0 0 bin
            = Return (bin ++ data)).
  { clear data. induction n as [| n IH]; intros data Hn bin.
    - destruct data; [| simpl in Hn; lia]. simpl. now rewrite app_nil_r.
    - destruct data as [| a [| b [| c rest]]].
      + simpl. now rewrite app_nil_r.
      + cbn [Caller.b64encode map].
        pose proof (to_N_lt_256 a) as Ha.
        rewrite !loop_sextet
          by (apply sextet0_lt || apply sextet1_alone_lt; assumption).
        cbn [N.eqb Pos.eqb]. change (Base64.byte_of_N 61) with x3d.
        cbn. f_equal. f_equal. f_equal.
        apply u8_octet, octet0_alone, Ha.
      + cbn [Caller.b64encode map].
        pose proof (to_N_lt_256 a) as Ha.
        pose proof (to_N_lt_256 b) as Hb.
        rewrite !loop_sextet
          by (apply sextet0_lt || apply sextet1_lt
              || apply sextet2_alone_lt; assumption).
        cbn [N.eqb Pos.eqb]. change (Base64.byte_of_N 61) with x3d.
        cbn. rewrite <- app_assoc. f_equal. f_equal. cbn. f_equal.
        * apply u8_octet, octet0; assumption.
        * f_equal. apply u8_octet, octet1_alone; assumption.
      + cbn [Caller.b64encode map].
        pose proof (to_N_lt_256 a) as Ha.
        pose proof (to_N_lt_256 b) as Hb.
        pose proof (to_N_lt_256 c) as Hc.
        rewrite !loop_sextet
          by (apply sextet0_lt || apply sextet1_lt || apply sextet2_lt
              || apply sextet3_lt; assumption).
        cbn [N.eqb Pos.eqb].
        rewrite IH by (simpl in Hn; lia).
        rewrite <- !app_assoc. cbn [app]. f_equal. f_equal. f_equal.
        * apply u8_octet, octet0; assumption.
        * f_equal; [apply u8_octet, octet1; assumption |].
          f_equal. apply u8_octet, octet2; assumption. }
  apply (H (List.length data)). lia.
Qed.

Lemma triples_ind {A} (P : list A -> Prop) :
  P [] -> (forall a, P [a]) -> (forall a b, P [a; b]) ->
  (forall a b c rest, P rest -> P (a :: b :: c :: rest)) ->
  forall l, P l.
Proof.
  intros H0 H1 H2 H3.
  fix IH 1. intros [| a [| b [| c rest]]];
    [exact H0 | apply H1 | apply H2 | apply H3, IH].
Qed.

Lemma b64encode_chars data :
  Forall (fun c => c < 128 /\ isspace c = false) (Caller.b64encode data).
Proof.
  assert (Hs : forall v, v < 64 ->
            Caller.table_b2a_base64 v < 128
            /\ isspace (Caller.table_b2a_base64 v) = false).
  { intros v Hv. destruct (sextet_char v Hv) as (_ & H1 & _ & H2).
    now split. }
  assert (Hp : 61 < 128 /\ isspace 61 = false) by (split; reflexivity).
  induction data as [| a | a b | a b c rest IH] using triples_ind;
    cbn [Caller.b64encode];
    try pose proof (to_N_lt_256 a) as Ha;
    try pose proof (to_N_lt_256 b) as Hb;
    try pose proof (to_N_lt_256 c) as Hc;
    repeat (constructor;
            [first [exact Hp | apply Hs;
               first [apply sextet0_lt | apply sextet1_lt
                     | apply sextet1_alone_lt | apply sextet2_lt
                     | apply sextet2_alone_lt | apply sextet3_lt];
               assumption] |]);
    try constructor; try exact IH.
Qed.

Lemma b64encode_well_formed data :
  Spec.well_formed_base64 (Caller.b64encode data) = true.
Proof.
  assert (Hs : forall v, v < 64 ->
            Spec.b64_alpha (Caller.table_b2a_base64 v) = true).
  { intros v Hv. now destruct (sextet_char v Hv) as (_ & _ & H & _). }
  induction data as [| a | a b | a b c rest IH] using triples_ind;
    cbn [Caller.b64encode Spec.well_formed_base64 is_empty];
    try reflexivity;
    pose proof (to_N_lt_256 a) as Ha;
    try pose proof (to_N_lt_256 b) as Hb;
    try pose proof (to_N_lt_256 c) as Hc;
    rewrite ?Hs by
      (first [apply sextet0_lt | apply sextet1_lt
             | apply sextet1_alone_lt | apply sextet2_lt
             | apply sextet2_alone_lt | apply sextet3_lt]; assumption);
    try reflexivity.
  rewrite IH. now destruct (Caller.b64encode rest).
Qed.

Lemma encode_ascii_below s :
  Forall (fun c => c < 128) s ->
  Base64.encode_ascii s = Return (map Base64.byte_of_N s).
Proof.
  induction 1 as [| c s Hc Hs IH]; simpl; [reflexivity |].
  now rewrite (proj2 (N.ltb_lt _ _) Hc), IH.
Qed.

Lemma b64decode_b64encode data :
  Base64.b64decode (Caller.b64encode data) = Return data.
Proof.
  unfold Base64.b64decode, Base64.a2b_base64.
  rewrite encode_ascii_below.
  - apply (loop_encoded data []).
  - eapply Forall_impl; [| apply b64encode_chars]. now intros c [H _].
Qed.

Lemma Forall_last {A} (P : A -> Prop) l d :
  Forall P l -> l <> [] -> P (last l d).
Proof.
  induction 1 as [| x l Hx Hl IH]; [congruence |]. intros _.
  destruct l as [| y l]; [exact Hx |]. apply IH. discriminate.
Qed.

Lemma strip_without_space s :
  Forall (fun c => isspace c = false) s -> strip s = s.
Proof.
  intros H. apply trimmed_strip. destruct s as [| c t]; [exact I |].
  split; [now inversion H |]. now apply Forall_last.
Qed.

Lemma strip_b64encode pre data post :
  Forall (fun c => isspace c = true) pre ->
  Forall (fun c => isspace c = true) post ->
  strip (pre ++ Caller.b64encode data ++ post) = Caller.b64encode data.
Proof.
  intros Hpre Hpost. rewrite strip_surrounded by assumption.
  apply strip_without_space.
  eapply Forall_impl; [| apply b64encode_chars]. now intros c [_ H].
Qed.

Lemma read_stdin_decoded stdin data w :
  Base64.b64decode (strip stdin) = Return data ->
  read_stdin stdin w = (Return data, w).
Proof.
  intros Hd. unfold read_stdin.
  destruct (strip stdin) as [| c s].
  - cbn in Hd. now injection Hd as <-.
  - cbn [is_empty]. unfold try_except, lift. now rewrite Hd.
Qed.

(** X1. The input decoder undoes the caller's encoding: on the base64
    text of any byte sequence, with any white space before and after
    it (the line end a shell adds, say), it returns that byte sequence
    and leaves the world as it was. *)
Theorem read_stdin_b64encode pre data post w :
  Forall (fun c => isspace c = true) pre ->
  Forall (fun c => isspace c = true) post ->
  read_stdin (pre ++ Caller.b64encode data ++ post) w = (Return data, w).
Proof.
  intros Hpre Hpost. apply read_stdin_decoded.
  rewrite strip_b64encode by assumption.
  apply b64decode_b64encode.
Qed.

Lemma read_stdin_b64encode_witness :
  read_stdin (lit " " ++ Caller.b64encode (bytes_of "%PDF-1.7") ++ [13; 10])
             initial_world
  = (Return (bytes_of "%PDF-1.7"), initial_world).
Proof.
  apply (read_stdin_b64encode (lit " ") (bytes_of "%PDF-1.7") [13; 10]
           initial_world);
    repeat constructor.
Defined.

(** X2. White space around the standard-input text does not count:
    with any white space added before and after, the decoder returns
    what it returns for the text alone. *)
Theorem read_stdin_ignores_outer_space pre stdin post w :
  Forall (fun c => isspace c = true) pre ->
  Forall (fun c => isspace c = true) post ->
  read_stdin (pre ++ stdin ++ post) w = read_stdin stdin w.
Proof.
  intros Hpre Hpost. unfold read_stdin.
  now rewrite strip_surrounded.
Qed.

Lemma read_stdin_ignores_outer_space_witness :
  read_stdin ([9; 32] ++ lit "YWJj!" ++ [10; 8232]) initial_world
  = read_stdin (lit "YWJj!") initial_world.
Proof.
  apply (read_stdin_ignores_outer_space [9; 32] (lit "YWJj!") [10; 8232]
           initial_world);
    repeat constructor.
Defined.

(** ** The size of the decoded input *)

Lemma loop_length data : forall qp lc pads bin out,
  Base64.a2b_base64_loop data qp lc pads bin = Return out ->
  (4 * List.length out
   <= 4 * List.length bin + 3 * List.length data + quad_room qp)%nat.
Proof.
  induction data as [| c rest IH]; intros qp lc pads bin out H;
    cbn [Base64.a2b_base64_loop] in H.
  - destruct (qp =? 0); [| discriminate]. injection H as <-. lia.
  - cbn [List.length].
    destruct (Byte.to_N c =? Base64.BASE64_PAD).
    + destruct (2 <=? qp).
      * destruct (4 <=? qp + (pads + 1)).
        -- injection H as <-. lia.
        -- apply IH in H. lia.
      * apply IH in H. lia.
    + destruct (Base64.table_a2b_base64 c) as [v |].
      * unfold quad_room.
        destruct (qp =? 0); [apply IH in H; cbn in H; lia |].
        destruct (qp =? 1);
          [apply IH in H; rewrite length_app in H; cbn in H; lia |].
        destruct (qp =? 2);
          apply IH in H; rewrite length_app in H; cbn in H; lia.
      * apply IH in H. lia.
Qed.

Lemma encode_ascii_length s : forall bs,
  Base64.encode_ascii s = Return bs -> List.length bs = List.length s.
Proof.
  intros bs H. rewrite <- (encode_ascii_chars s bs H).
  now rewrite length_map.
Qed.

Lemma lstrip_length s : (List.length (lstrip s) <= List.length s)%nat.
Proof.
  induction s as [| c s IH]; simpl; [lia |].
  destruct (isspace c); simpl; lia.
Qed.

Lemma strip_length s : (List.length (strip s) <= List.length s)%nat.
Proof.
  unfold strip, rstrip. rewrite length_rev.
  pose proof (lstrip_length (rev (lstrip s))) as H1.
  rewrite length_rev in H1. pose proof (lstrip_length s). lia.
Qed.

(** X3. The decoded input is never longer than three quarters of the
    standard-input text: four times the number of bytes returned is at
    most three times the number of characters read. *)
Theorem read_stdin_size stdin w :
  exists data,
    read_stdin stdin w = (Return data, w)
    /\ (4 * List.length data <= 3 * List.length (strip stdin))%nat
    /\ (4 * List.length data <= 3 * List.length stdin)%nat.
Proof.
  assert (H : exists data,
             read_stdin stdin w = (Return data, w)
             /\ (4 * List.length data
                 <= 3 * List.length (strip stdin))%nat).
  { unfold read_stdin. destruct (is_empty (strip stdin)).
    - exists []. split; [reflexivity | simpl; lia].
    - unfold try_except, lift, ret.
      destruct (Base64.b64decode (strip stdin)) as [data | e] eqn:Hd.
      + exists data. split; [reflexivity |].
        unfold Base64.b64decode in Hd.
        destruct (Base64.encode_ascii (strip stdin)) as [bs | e] eqn:Hb;
          [| discriminate].
        apply loop_length in Hd.
        change (quad_room 0) with 0%nat in Hd. cbn [List.length] in Hd.
        rewrite (encode_ascii_length _ _ Hb) in Hd. lia.
      + exists []. split; [reflexivity | simpl; lia]. }
  destruct H as (data & Hrun & Hlen). exists data.
  repeat split; trivial. pose proof (strip_length stdin). lia.
Qed.

(** ** Characters that are not base64 *)

Lemma encode_ascii_forallb s :
  Base64.encode_ascii s
  = if forallb (fun c => c <? 128) s
    then Return (map Base64.byte_of_N s)
    else Raise (Exn "ValueError").
Proof.
  induction s as [| c s IH]; simpl; [reflexivity |].
  destruct (c <? 128); simpl; [| reflexivity].
  rewrite IH. now destruct (forallb (fun c => c <? 128) s).
Qed.

(** X4. A character outside ASCII anywhere in the stripped text makes
    the whole input count for nothing: the decoder returns the empty
    byte sequence, whatever base64 stands around that character. *)
Theorem read_stdin_rejects_non_ascii stdin c w :
  In c (strip stdin) ->
  128 <= c ->
  read_stdin stdin w = (Return [], w).
Proof.
  intros Hin Hc. unfold read_stdin.
  destruct (is_empty (strip stdin)); [reflexivity |].
  unfold try_except, lift, ret, Base64.b64decode.
  rewrite encode_ascii_forallb.
  destruct (forallb (fun c => c <? 128) (strip stdin)) eqn:Hall;
    [| reflexivity].
  rewrite forallb_forall in Hall. specialize (Hall c Hin).
  apply N.ltb_lt in Hall. lia.
Qed.

Lemma read_stdin_rejects_non_ascii_witness :
  read_stdin (lit "YWJj" ++ [233] ++ lit "YWJj") initial_world
  = (Return [], initial_world).
Proof.
  apply (read_stdin_rejects_non_ascii
           (lit "YWJj" ++ [233] ++ lit "YWJj") 233 initial_world).
  - vm_compute. tauto.
  - vm_compute. discriminate.
Defined.

Lemma loop_skips_foreign b d1 d2 :
  Byte.to_N b <> 61 ->
  Base64.table_a2b_base64 b = None ->
  forall qp lc pads bin,
    Base64.a2b_base64_loop (d1 ++ b :: d2) qp lc pads bin
    = Base64.a2b_base64_loop (d1 ++ d2) qp lc pads bin.
Proof.
  intros Hne Hnone. induction d1 as [| c d1 IH]; intros qp lc pads bin.
  - cbn [app Base64.a2b_base64_loop]. unfold Base64.BASE64_PAD.
    now rewrite (proj2 (N.eqb_neq _ _) Hne), Hnone.
  - cbn [app Base64.a2b_base64_loop].
    destruct (Byte.to_N c =? Base64.BASE64_PAD).
    + destruct (2 <=? qp); [| apply IH].
      destruct (4 <=? qp + (pads + 1)); [reflexivity | apply IH].
    + destruct (Base64.table_a2b_base64 c) as [v |]; [| apply IH].
      destruct (qp =? 0); [apply IH |].
      destruct (qp =? 1); [apply IH |].
      destruct (qp =? 2); apply IH.
Qed.

Lemma b64decode_skips_foreign s1 c s2 :
  c < 128 -> Spec.b64_alpha c = false -> c <> 61 ->
  Base64.b64decode (s1 ++ c :: s2) = Base64.b64decode (s1 ++ s2).
Proof.
  intros Hc Ha Hp. unfold Base64.b64decode.
  rewrite !encode_ascii_forallb, !forallb_app. cbn [forallb].
  rewrite (proj2 (N.ltb_lt _ _) Hc). cbn [andb].
  destruct (forallb (fun c => c <? 128) s1
            && forallb (fun c => c <? 128) s2); [| reflexivity].
  unfold Base64.a2b_base64. rewrite !map_app. cbn [map].
  apply loop_skips_foreign.
  - rewrite to_N_byte_of_N by lia. exact Hp.
  - destruct (Base64.table_a2b_base64 (Base64.byte_of_N c)) as [v |] eqn:Ht;
      [| reflexivity].
    destruct (table_alpha _ _ Ht) as [Hal _].
    rewrite to_N_byte_of_N in Hal by lia. congruence.
Qed.

Lemma last_app_r {A} (l l' : list A) d :
  l' <> [] -> last (l ++ l') d = last l' d.
Proof.
  intros H. induction l as [| x l IH]; [reflexivity |].
  cbn [app last]. destruct (l ++ l') eqn:E; [| exact IH].
  apply app_eq_nil in E. tauto.
Qed.

Lemma trimmed_insert s1 c s2 :
  s1 <> [] -> s2 <> [] -> trimmed (s1 ++ s2) -> trimmed (s1 ++ c :: s2).
Proof.
  intros H1 H2. destruct s1 as [| a s1]; [congruence |].
  cbn [app trimmed]. intros [Ha Hl]. split; [exact Ha |].
  change (a :: s1 ++ c :: s2) with ((a :: s1) ++ c :: s2).
  change (a :: s1 ++ s2) with ((a :: s1) ++ s2) in Hl.
  rewrite last_app_r in Hl by exact H2.
  rewrite last_app_r by discriminate.
  destruct s2 as [| z s2]; [congruence | exact Hl].
Qed.

(** X5. An ASCII character that is neither of the base64 alphabet nor
    the pad (a line break of wrapped base64, say) is passed over
    wherever it stands inside the text: with it or without it the
    decoder returns the same bytes. *)
Theorem read_stdin_skips_foreign s1 c s2 w :
  s1 <> [] -> s2 <> [] -> trimmed (s1 ++ s2) ->
  c < 128 -> Spec.b64_alpha c = false -> c <> 61 ->
  read_stdin (s1 ++ c :: s2) w = read_stdin (s1 ++ s2) w.
Proof.
  intros H1 H2 Ht Hc Ha Hp. unfold read_stdin.
  rewrite (trimmed_strip (s1 ++ s2) Ht).
  rewrite (trimmed_strip (s1 ++ c :: s2)
             (trimmed_insert s1 c s2 H1 H2 Ht)).
  rewrite b64decode_skips_foreign by assumption.
  destruct s1 as [| a s1]; [congruence | reflexivity].
Qed.

Lemma read_stdin_skips_foreign_witness :
  read_stdin (lit "aGVsbG8g" ++ 10 :: lit "d29ybGQ=") initial_world
  = read_stdin (lit "aGVsbG8g" ++ lit "d29ybGQ=") initial_world.
Proof.
  apply (read_stdin_skips_foreign (lit "aGVsbG8g") 10 (lit "d29ybGQ=")
           initial_world);
    try discriminate; try reflexivity.
  split; reflexivity.
Defined.

(** ** The text written has no white space at its ends *)

Lemma extract_docx_trimmed rt data w s :
  result (extract_docx rt data) w = Return s -> trimmed s.
Proof.
  destruct data as [| b data].
  - intros H. injection H as <-. exact I.
  - rewrite extract_docx_result by discriminate.
    destruct (document_root rt (b :: data)); intros H; injection H as <-.
    + apply strip_trimmed.
    + exact I.
Qed.

Lemma scan_text_trimmed data : trimmed (scan_text data).
Proof. apply strip_trimmed. Qed.

Lemma extract_pdf_trimmed rt data w s :
  result (extract_pdf rt data) w = Return s -> trimmed s.
Proof.
  destruct data as [| b data].
  - intros H. injection H as <-. exact I.
  - rewrite extract_pdf_result, pypdf_text_pages by discriminate.
    destruct (document_pages rt (b :: data)) as [it | e].
    + destruct (result (pages_loop it []) _) as [chunks | e];
        intros H; injection H as <-;
        [apply strip_trimmed | apply scan_text_trimmed].
    + intros H. injection H as <-. apply scan_text_trimmed.
Qed.

(** X6. Whatever the arguments, the input and the libraries, the text
    in the envelope that [main] writes has no white space at its
    start or at its end, and trimming it again changes nothing. *)
Theorem main_text_is_trimmed rt argv stdin w :
  exists text w',
    main rt argv stdin w = (Return tt, w')
    /\ stdout w' = stdout w ++ [Json.dumps_text text]
    /\ trimmed text
    /\ strip text = text.
Proof.
  destruct (main_writes_once rt argv stdin w)
    as (data & text & w1 & _ & Hd & Hmain).
  exists text. eexists. split; [exact Hmain |].
  split; [reflexivity |].
  assert (Ht : trimmed text).
  { unfold dispatch in Hd.
    destruct (str_eqb (mime_arg argv) MIME_DOCX).
    - apply (extract_docx_trimmed rt data w). unfold result.
      now rewrite Hd.
    - destruct (str_eqb (mime_arg argv) MIME_PDF).
      + apply (extract_pdf_trimmed rt data w). unfold result.
        now rewrite Hd.
      + injection Hd as <- _. exact I. }
  split; [exact Ht | now apply trimmed_strip].
Qed.

(** ** The calls the extractors make *)

Lemma pages_loop_raises it : forall chunks w,
  ~ exhausts it -> exists e, result (pages_loop it chunks) w = Raise e.
Proof.
  induction it as [| e | t rest IH]; intros chunks w Hex; simpl in *.
  - tauto.
  - now exists e.
  - unfold result, bind, try_except. rewrite run_call.
    destruct t as [t | e]; simpl; apply IH, Hex.
Qed.

Lemma pages_loop_calls it : forall chunks w,
  calls (final (pages_loop it chunks) w)
  = calls w ++ repeat PageExtractText (page_count it).
Proof.
  induction it as [| e | t rest IH]; intros chunks w; simpl.
  - now rewrite app_nil_r.
  - now rewrite app_nil_r.
  - unfold final, bind, try_except. rewrite run_call.
    destruct t as [t | e]; simpl;
      match goal with
      | |- calls (snd (pages_loop rest ?c ?w')) = _ =>
          specialize (IH c w'); unfold final in IH; rewrite IH
      end; simpl; now rewrite <- app_assoc.
Qed.

(** X7. When iterating the pages of the reader raises, the texts of
    the pages extracted before are dropped and the extractor returns
    the tier 2 text of the bytes. *)
Theorem extract_pdf_falls_back_on_page_iteration rt data it w :
  data <> [] ->
  document_pages rt data = Return it ->
  ~ exhausts it ->
  result (extract_pdf rt data) w = Return (scan_text data).
Proof.
  intros Hne Hit Hex.
  rewrite extract_pdf_result, pypdf_text_pages, Hit by assumption.
  destruct (pages_loop_raises it [] 
              (World (calls w ++ [ImportPypdf; PdfReaderNew data])
                     (stdout w)) Hex) as (e & He).
  now rewrite He.
Qed.

Lemma extract_pdf_falls_back_on_page_iteration_witness :
  result (extract_pdf
            (stub_runtime (Raise (Exn "ParseError"))
               (Return (fun _ =>
                  Return (NextPage (Return (Some (lit "first page")))
                            (IterRaise (Exn "PdfReadError"))))))
            (bytes_of "%PDF-1.4 broken")) initial_world
  = Return (lit "%PDF-1.4 broken").
Proof.
  apply (extract_pdf_falls_back_on_page_iteration
           (stub_runtime (Raise (Exn "ParseError"))
              (Return (fun _ =>
                 Return (NextPage (Return (Some (lit "first page")))
                           (IterRaise (Exn "PdfReadError"))))))
           (bytes_of "%PDF-1.4 broken")
           (NextPage (Return (Some (lit "first page")))
              (IterRaise (Exn "PdfReadError")))
           initial_world).
  - discriminate.
  - reflexivity.
  - simpl. tauto.
Defined.

(** X8. When pypdf reads the document and the iteration over its
    pages comes to its end, the extractor has imported pypdf, built
    one reader and called [extract_text] once for every page, in that
    order, and has not scanned the bytes, even when no page gave any
    text. *)
Theorem extract_pdf_tier1_calls rt data it w :
  data <> [] ->
  document_pages rt data = Return it ->
  exhausts it ->
  calls (final (extract_pdf rt data) w)
  = calls w ++ ImportPypdf :: PdfReaderNew data
               :: repeat PageExtractText (page_count it).
Proof.
  intros Hne Hit Hex. unfold document_pages, and_then in Hit.
  destruct (import_PdfReader rt) as [cls | e] eqn:Hi; [| discriminate].
  destruct (cls data) as [r | e] eqn:Hr; [| discriminate].
  injection Hit as <-.
  unfold extract_pdf, final, bind. rewrite (is_empty_false _ Hne).
  unfold pypdf_text, try_except, bind. rewrite run_call, Hi. simpl.
  rewrite Hr. simpl.
  pose proof (pages_loop_exhausts (pages rt r) []
                (World ((calls w ++ [ImportPypdf]) ++ [PdfReaderNew data])
                       (stdout w)) Hex) as Hres.
  pose proof (pages_loop_calls (pages rt r) []
                (World ((calls w ++ [ImportPypdf]) ++ [PdfReaderNew data])
                       (stdout w))) as Hcalls.
  unfold result, final in Hres, Hcalls.
  destruct (pages_loop (pages rt r) [] _) as [[chunks | e] w1];
    simpl in *; [| discriminate].
  rewrite Hcalls. now rewrite <- !app_assoc.
Qed.

Lemma extract_pdf_tier1_calls_witness :
  calls (final (extract_pdf four_pages_runtime (bytes_of "%PDF-1.4"))
               initial_world)
  = [ImportPypdf; PdfReaderNew (bytes_of "%PDF-1.4");
     PageExtractText; PageExtractText; PageExtractText; PageExtractText].
Proof.
  apply (extract_pdf_tier1_calls four_pages_runtime (bytes_of "%PDF-1.4")
           four_pages initial_world).
  - discriminate.
  - reflexivity.
  - exact I.
Defined.

(** X9. On bytes that are not empty the DOCX extractor calls the
    libraries in the order archive, entry, read, XML parser and stops
    at the first call that raises: the XML parser is not called unless
    the entry was read, nor the entry opened unless the archive was. *)
Theorem extract_docx_calls rt data w :
  data <> [] ->
  calls (final (extract_docx rt data) w) = calls w ++ docx_calls rt data.
Proof.
  intros Hne. unfold extract_docx, docx_calls, final.
  rewrite (is_empty_false _ Hne).
  unfold try_except, bind. rewrite run_call.
  destruct (ZipFile rt data) as [a | e]; simpl; [| reflexivity].
  destruct (zip_open rt a _) as [d | e]; simpl;
    [| now rewrite <- app_assoc].
  destruct (zip_read rt d) as [x | e]; simpl;
    [| now rewrite <- !app_assoc].
  destruct (ET_fromstring rt x) as [root | e]; simpl;
    now rewrite <- !app_assoc.
Qed.

Lemma extract_docx_calls_witness :
  calls (final (extract_docx
                  (stub_runtime (Raise (Exn "ParseError"))
                                (Raise (Exn "ImportError")))
                  (bytes_of "PK")) initial_world)
  = [ZipFileNew (bytes_of "PK"); ZipOpen (lit "word/document.xml");
     ZipRead; XmlFromstring (bytes_of "PK")].
Proof.
  apply (extract_docx_calls
           (stub_runtime (Raise (Exn "ParseError"))
                         (Raise (Exn "ImportError")))
           (bytes_of "PK") initial_world).
  discriminate.
Defined.

(** ** The byte scan: size, separators, plain text *)

Lemma pieces_weight data :
  list_sum (map (fun p => S (List.length p)) (Spec.pieces data))
  = S (List.length data).
Proof.
  induction data as [| b rest IH]; [reflexivity |].
  rewrite pieces_cons. destruct (printable_byte b).
  - destruct (Spec.pieces rest) as [| p ps] eqn:Hp.
    + now destruct (pieces_not_nil rest).
    + simpl in *. lia.
  - simpl in *. lia.
Qed.

Lemma filter_weight {A} (f : A -> nat) (p : A -> bool) l :
  (list_sum (map f (filter p l)) <= list_sum (map f l))%nat.
Proof.
  induction l as [| x l IH]; simpl; [lia |].
  destruct (p x); simpl; lia.
Qed.

Lemma firstn_weight {A} (f : A -> nat) n : forall l,
  (list_sum (map f (firstn n l)) <= list_sum (map f l))%nat.
Proof.
  induction n as [| n IH]; intros [| x l]; simpl; try lia.
  specialize (IH l). lia.
Qed.

Lemma join_weight (c : char) parts :
  (List.length (join [c] parts)
   <= pred (list_sum (map (fun p => S (List.length p)) parts)))%nat.
Proof.
  induction parts as [| p ps IH]; [simpl; lia |].
  cbn [join]. destruct ps as [| q ps].
  - simpl. lia.
  - rewrite !length_app. simpl in *. lia.
Qed.

Lemma fragments_weight data :
  (list_sum (map (fun p => S (List.length p)) (printable_fragments data))
   <= S (List.length data))%nat.
Proof.
  rewrite printable_fragments_runs.
  unfold Spec.qualifying_runs, Spec.maximal_runs.
  rewrite map_map.
  rewrite (map_ext _ (fun p : bytes => S (List.length p)))
    by (intros p; now rewrite length_map).
  rewrite <- pieces_weight.
  etransitivity; [apply filter_weight | apply filter_weight].
Qed.

(** X10. The tier 2 text is never longer than the input: the runs it
    joins lie apart in the data, with at least one byte between two
    of them for the space that joins them. *)
Theorem scan_text_length data :
  (List.length (scan_text data) <= List.length data)%nat.
Proof.
  unfold scan_text.
  etransitivity; [apply strip_length |].
  etransitivity; [apply (join_weight 32) |].
  assert (Hpred : forall m n, (m <= S n)%nat -> (pred m <= n)%nat)
    by (intros; lia).
  apply Hpred.
  etransitivity; [apply firstn_weight | apply fragments_weight].
Qed.

Lemma pieces_app_cut d1 b d2 :
  printable_byte b = false ->
  Spec.pieces (d1 ++ b :: d2) = Spec.pieces d1 ++ Spec.pieces d2.
Proof.
  intros Hb. induction d1 as [| a d1 IH].
  - cbn [app]. now rewrite pieces_cons, Hb.
  - cbn [app]. rewrite !pieces_cons, IH.
    destruct (printable_byte a); [| reflexivity].
    destruct (Spec.pieces d1) as [| p ps] eqn:Hp; [| reflexivity].
    now destruct (pieces_not_nil d1).
Qed.

(** X11. A byte outside [32, 126] cuts the scan in two: the fragments
    of the data are those of what is before it followed by those of
    what is after it, no run reaching across. *)
Theorem printable_fragments_cut d1 b d2 :
  printable_byte b = false ->
  printable_fragments (d1 ++ b :: d2)
  = printable_fragments d1 ++ printable_fragments d2.
Proof.
  intros Hb. rewrite !printable_fragments_runs.
  unfold Spec.qualifying_runs, Spec.maximal_runs.
  now rewrite pieces_app_cut, !filter_app, map_app by exact Hb.
Qed.

Lemma printable_fragments_cut_witness :
  printable_fragments
    (bytes_of "BT (Hello) Tj" ++ x0a :: bytes_of "ET endstream")
  = printable_fragments (bytes_of "BT (Hello) Tj")
      ++ printable_fragments (bytes_of "ET endstream").
Proof.
  apply (printable_fragments_cut (bytes_of "BT (Hello) Tj") x0a
           (bytes_of "ET endstream")).
  reflexivity.
Defined.

Lemma pieces_all_printable data :
  Forall (fun b => printable_byte b = true) data ->
  Spec.pieces data = [data].
Proof.
  induction 1 as [| b rest Hb Hrest IH]; [reflexivity |].
  now rewrite pieces_cons, Hb, IH.
Qed.

(** X12. On data made of bytes in [32, 126] only, the tier 2 text is
    the data itself, one character per byte, trimmed, when there are
    at least six bytes, and the empty string when there are fewer. *)
Theorem scan_text_plain data :
  Forall (fun b => printable_byte b = true) data ->
  scan_text data
  = if (6 <=? List.length data)%nat then strip (map chr data) else [].
Proof.
  intros H. unfold scan_text. rewrite printable_fragments_runs.
  unfold Spec.qualifying_runs, Spec.maximal_runs.
  rewrite (pieces_all_printable data H).
  destruct data as [| b data]; [reflexivity |].
  cbn [filter is_empty negb].
  destruct (6 <=? List.length (b :: data))%nat; [| reflexivity].
  change (map (map Spec.code_point) [b :: data])
    with [map Spec.code_point (b :: data)].
  rewrite map_chr_code_point. reflexivity.
Qed.

Lemma scan_text_plain_witness :
  scan_text (bytes_of "  plain text ")
  = if (6 <=? List.length (bytes_of "  plain text "))%nat
    then strip (map chr (bytes_of "  plain text ")) else [].
Proof.
  apply (scan_text_plain (bytes_of "  plain text ")).
  repeat constructor.
Defined.

(** ** The order of the text runs *)

Lemma text_nodes_runs root :
  fold_left collect_text (iter root) [] = Spec.runs_in_namespace root.
Proof.
  unfold Spec.runs_in_namespace.
  rewrite (collect_text_filter
             (fun e => Spec.in_namespace (tag e)
                       && str_eqb (Spec.local_name (tag e)) (lit "t")
                       && truthy (text e))).
  - reflexivity.
  - intros e. now rewrite endswith_brace_t.
Qed.

Lemma runs_flat_map (keep : Element -> bool) (g : Element -> str) cs :
  map g (filter keep (flat_map iter cs))
  = flat_map (fun c => map g (filter keep (iter c))) cs.
Proof.
  induction cs as [| c cs IH]; [reflexivity |].
  cbn [flat_map]. now rewrite filter_app, map_app, IH.
Qed.

(** X13. The text runs come in document order: those collected from
    an element are its own run, if it has one, then the runs of its
    first child's subtree, then those of the next child's, and so on;
    the text after an element's end tag is not looked at. *)
Theorem text_nodes_document_order t x tl cs :
  fold_left collect_text (iter (Elem t x tl cs)) []
  = collect_text [] (Elem t x None [])
      ++ flat_map (fun c => fold_left collect_text (iter c) []) cs.
Proof.
  pose (keep := fun e => endswith (tag e) (lit "}t") && truthy (text e)).
  cbn [iter fold_left].
  rewrite (collect_text_filter keep) by reflexivity.
  rewrite runs_flat_map. f_equal.
  apply flat_map_ext. intros c.
  now rewrite (collect_text_filter keep) by reflexivity.
Qed.

(** ** From the caller's bytes to the envelope *)

(** X14. Without pypdf, for the PDF MIME type and the base64 text of
    any bytes (white space around it allowed, further arguments
    ignored), [main] writes the envelope of the tier 2 text of those
    bytes, which reads back as JSON to that text; the only calls made
    are the failed import and the byte scan, and none for no bytes. *)
Theorem main_pdf_without_pypdf rt prog more pre data post e w :
  Forall (fun c => isspace c = true) pre ->
  Forall (fun c => isspace c = true) post ->
  import_PdfReader rt = Raise e ->
  main rt (prog :: MIME_PDF :: more)
       (pre ++ Caller.b64encode data ++ post) w
  = (Return tt,
     World (calls w ++ if is_empty data then []
                       else [ImportPypdf; ByteScan data])
           (stdout w ++ [Json.dumps_text (scan_text data)]))
  /\ JsonSyntax.parse (Json.dumps_text (scan_text data))
     = Some (JsonSyntax.JObject
               [(lit "text", JsonSyntax.JString (scan_text data))]).
Proof.
  intros Hpre Hpost Hi. split; [| apply parse_dumps_text].
  unfold main, bind.
  rewrite (read_stdin_decoded _ data)
    by (rewrite strip_b64encode by assumption;
        apply b64decode_b64encode).
  change (mime_arg (prog :: MIME_PDF :: more)) with MIME_PDF.
  change (dispatch (extract_docx rt) (extract_pdf rt) MIME_PDF data)
    with (extract_pdf rt data).
  destruct data as [| b data].
  - change (extract_pdf rt []) with (@ret str []).
    unfold ret, stdout_write. cbn [is_empty calls stdout].
    now rewrite app_nil_r.
  - unfold extract_pdf. cbn [is_empty]. unfold bind, pypdf_text,
      try_except, bind. rewrite run_call, Hi.
    unfold ret, log, stdout_write. cbn [is_empty calls stdout].
    now rewrite <- app_assoc.
Qed.

Lemma main_pdf_without_pypdf_witness :
  main bare_runtime [lit "extract_docs.py"; MIME_PDF]
       (Caller.b64encode (bytes_of "%PDF-1.4 text") ++ [10])
       initial_world
  = (Return tt,
     World [ImportPypdf; ByteScan (bytes_of "%PDF-1.4 text")]
           [Json.dumps_text (lit "%PDF-1.4 text")]).
Proof.
  apply (proj1 (main_pdf_without_pypdf bare_runtime
                  (lit "extract_docs.py") [] []
                  (bytes_of "%PDF-1.4 text") [10] (Exn "ImportError")
                  initial_world ltac:(constructor)
                  ltac:(repeat constructor) eq_refl)).
Defined.

(** X15. For the DOCX MIME type and the base64 text of bytes in which
    the libraries find a document, [main] writes the envelope of the
    document's text runs, joined by spaces and trimmed. *)
Theorem main_docx_envelope rt prog more pre data post root w :
  Forall (fun c => isspace c = true) pre ->
  Forall (fun c => isspace c = true) post ->
  data <> [] ->
  document_root rt data = Return root ->
  result (main rt (prog :: MIME_DOCX :: more)
               (pre ++ Caller.b64encode data ++ post)) w = Return tt
  /\ stdout (final (main rt (prog :: MIME_DOCX :: more)
                         (pre ++ Caller.b64encode data ++ post)) w)
     = stdout w
         ++ [Json.dumps_text (Spec.joined (Spec.runs_in_namespace root))].
Proof.
  intros Hpre Hpost Hne Hroot.
  destruct (main_writes_once rt (prog :: MIME_DOCX :: more)
              (pre ++ Caller.b64encode data ++ post) w)
    as (d & text & w1 & Hd & Ht & Hmain).
  rewrite (read_stdin_decoded _ data) in Hd
    by (rewrite strip_b64encode by assumption;
        apply b64decode_b64encode).
  injection Hd as <-.
  change (mime_arg (prog :: MIME_DOCX :: more)) with MIME_DOCX in Ht.
  change (dispatch (extract_docx rt) (extract_pdf rt) MIME_DOCX data)
    with (extract_docx rt data) in Ht.
  pose proof (extract_docx_result rt data w Hne) as Hres.
  unfold result in Hres. rewrite Ht, Hroot, text_nodes_runs in Hres.
  simpl in Hres. injection Hres as ->.
  unfold result, final. rewrite Hmain. split; reflexivity.
Qed.

Lemma main_docx_envelope_witness :
  stdout (final (main (stub_runtime (Return word_document)
                                    (Raise (Exn "ImportError")))
                      [lit "extract_docs.py"; MIME_DOCX]
                      (Caller.b64encode (bytes_of "PK") ++ [10]))
                initial_world)
  = [Json.dumps_text (lit "Hello  world")].
Proof.
  apply (proj2 (main_docx_envelope
                  (stub_runtime (Return word_document)
                                (Raise (Exn "ImportError")))
                  (lit "extract_docs.py") [] [] (bytes_of "PK") [10]
                  word_document initial_world ltac:(constructor)
                  ltac:(repeat constructor) ltac:(discriminate) eq_refl)).
Defined.

(** ** The envelope *)

(** X16. The envelope loses nothing: two texts with the same envelope
    are the same text. *)
Theorem dumps_text_injective t1 t2 :
  Json.dumps_text t1 = Json.dumps_text t2 -> t1 = t2.
Proof.
  intros H. pose proof (parse_dumps_text t1) as H1.
  rewrite H, parse_dumps_text in H1. congruence.
Qed.

Lemma dumps_text_injective_witness :
  lit "a" ++ [10] = [97; 10].
Proof.
  apply (dumps_text_injective (lit "a" ++ [10]) [97; 10]). reflexivity.
Defined.

Lemma hex_digit_ge n : 32 <= Json.hex_digit n.
Proof. unfold Json.hex_digit. destruct (n <? 10); lia. Qed.

Lemma escape_char_ge c : Forall (fun d => 32 <= d) (Json.escape_char c).
Proof.
  unfold Json.escape_char, Json.u_escape, backslash, dquote.
  repeat match goal with
         | |- context [if ?b then _ else _] => destruct b eqn:?
         end;
    repeat constructor; try lia; try apply hex_digit_ge.
  apply N.ltb_ge. assumption.
Qed.

(** X17. The envelope holds no character below U+0020, whatever the
    text: a line feed, a carriage return, a tab and every other
    character below U+0020 is written as an escape. Every character
    from U+005D up is written as itself, U+007F, U+0085, U+2028 and
    U+2029 among them. *)
Theorem dumps_text_no_control text :
  Forall (fun d => 32 <= d) (Json.dumps_text text)
  /\ forall c, Json.escape_char (93 + c) = [93 + c].
Proof.
  split.
  - rewrite dumps_text_shape.
    repeat (apply Forall_app; split);
      try (repeat constructor; vm_compute; discriminate).
    apply Forall_flat_map, Forall_forall. intros c _.
    apply escape_char_ge.
  - intros c. unfold Json.escape_char, backslash, dquote.
    repeat match goal with
           | |- context [?a =? ?b] =>
               destruct (N.eqb_spec a b); [lia |]
           end.
    destruct (N.ltb_spec (93 + c) 32); [lia | reflexivity].
Qed.

(** ** Well-formed base64 is never turned away *)

Lemma b64_alpha_not_pad c : Spec.b64_alpha c = true -> c <> 61.
Proof. intros H ->. discriminate. Qed.

Lemma b64_alpha_table c :
  Spec.b64_alpha c = true ->
  exists v, Base64.table_a2b_base64 (Base64.byte_of_N c) = Some v.
Proof.
  intros Ha. pose proof (b64_alpha_ascii c Ha) as Hc.
  destruct (Base64.table_a2b_base64 (Base64.byte_of_N c)) as [v |] eqn:Ht;
    [now exists v |].
  apply table_not_alpha in Ht. rewrite to_N_byte_of_N in Ht by lia.
  congruence.
Qed.

Ltac room :=
  repeat match goal with
         | |- context [quad_room ?q] =>
             let v := eval vm_compute in (quad_room q) in
             change (quad_room q) with v
         | H : context [quad_room ?q] |- _ =>
             let v := eval vm_compute in (quad_room q) in
             change (quad_room q) with v in H
         end.

Lemma loop_well_formed s : forall pos lc bin,
  (pos <= 3)%nat ->
  Spec.well_formed_from pos s = true ->
  exists out,
    Base64.a2b_base64_loop (map Base64.byte_of_N s) (N.of_nat pos) lc 0 bin
    = Return out
    /\ (4 * List.length out + 4 * count_occ N.eq_dec s 61%N
        = 4 * List.length bin + 3 * List.length s
          + quad_room (N.of_nat pos))%nat.
Proof.
  induction s as [| c rest IH]; intros pos lc bin Hpos Hwf.
  - cbn [Spec.well_formed_from] in Hwf. apply Nat.eqb_eq in Hwf as ->.
    exists bin. split; [reflexivity | room; cbn [count_occ List.length]; lia].
  - cbn [Spec.well_formed_from] in Hwf. cbn [map List.length].
    destruct (Spec.b64_alpha c) eqn:Ha.
    + (* a character of the alphabet *)
      destruct (b64_alpha_table c Ha) as (v & Hv).
      pose proof (b64_alpha_not_pad c Ha) as Hnp.
      pose proof (b64_alpha_ascii c Ha) as Hc.
      cbn [Base64.a2b_base64_loop]. unfold Base64.BASE64_PAD.
      rewrite to_N_byte_of_N by lia.
      rewrite (proj2 (N.eqb_neq _ _) Hnp), Hv.
      destruct pos as [| [| [| [| pos]]]]; try lia;
        cbn [N.of_nat Pos.of_succ_nat Pos.succ N.eqb Pos.eqb];
        match goal with
        | |- exists _, Base64.a2b_base64_loop _ ?q ?l 0 ?b = _ /\ _ =>
            destruct (IH (N.to_nat q) l b ltac:(simpl; lia) Hwf)
              as (out & Hrun & Hlen)
        end;
        exists out; (split; [exact Hrun |]);
        cbn [count_occ];
        (destruct (N.eq_dec c 61) as [E | E]; [congruence |]);
        rewrite ?length_app in Hlen; room; cbn [List.length] in Hlen; lia.
    + (* a pad *)
      unfold Spec.b64_pad in Hwf.
      destruct (N.eqb_spec c 61) as [-> | Hc]; [| discriminate].
      destruct pos as [| [| [| [| pos]]]]; try discriminate; try lia.
      * destruct rest as [| d [| ? ?]]; try discriminate.
        apply N.eqb_eq in Hwf as ->.
        exists bin. split; [reflexivity |].
        room. cbn. lia.
      * destruct rest; [| discriminate].
        exists bin. split; [reflexivity |].
        room. cbn. lia.
Qed.

(** X18. Well-formed base64 is always decoded: when the stripped text
    is well-formed the decoder returns its decoding, the lenient
    decoder not raising, and the number of bytes is three for every
    four characters less one for every pad. *)
Theorem read_stdin_well_formed stdin w :
  Spec.well_formed_base64 (strip stdin) = true ->
  exists data,
    read_stdin stdin w = (Return data, w)
    /\ Base64.b64decode (strip stdin) = Return data
    /\ (4 * List.length data + 4 * count_occ N.eq_dec (strip stdin) 61%N
        = 3 * List.length (strip stdin))%nat.
Proof.
  intros Hwf. rewrite <- well_formed_from_0 in Hwf.
  destruct (loop_well_formed (strip stdin) 0 0 [] ltac:(lia) Hwf)
    as (data & Hrun & Hlen).
  assert (Hd : Base64.b64decode (strip stdin) = Return data).
  { unfold Base64.b64decode.
    rewrite encode_ascii_below
      by (eapply well_formed_from_ascii, Hwf).
    exact Hrun. }
  exists data. repeat split; trivial.
  - now apply read_stdin_decoded.
  - room. cbn [List.length] in Hlen. lia.
Qed.

Lemma read_stdin_well_formed_witness :
  exists data,
    read_stdin (lit "aGVsbG8gd29ybGQ=") initial_world
    = (Return data, initial_world)
    /\ Base64.b64decode (strip (lit "aGVsbG8gd29ybGQ=")) = Return data
    /\ (4 * List.length data
        + 4 * count_occ N.eq_dec (strip (lit "aGVsbG8gd29ybGQ=")) 61%N
        = 3 * List.length (strip (lit "aGVsbG8gd29ybGQ=")))%nat.
Proof.
  apply (read_stdin_well_formed (lit "aGVsbG8gd29ybGQ=") initial_world).
  reflexivity.
Defined.

(** ** The lenient decoder, pinned by the caller's encoding *)

Lemma with_foreign_ascii w s :
  with_foreign w s ->
  forallb (fun c => c <? 128) s = forallb (fun c => c <? 128) w.
Proof.
  induction 1 as [| c w s H IH | c w s Hc Ha Hp H IH]; cbn [forallb].
  - reflexivity.
  - now rewrite IH.
  - now rewrite (proj2 (N.ltb_lt _ _) Hc), IH.
Qed.

Lemma with_foreign_loop w s :
  with_foreign w s ->
  forall qp lc pads bin,
    Base64.a2b_base64_loop (map Base64.byte_of_N s) qp lc pads bin
    = Base64.a2b_base64_loop (map Base64.byte_of_N w) qp lc pads bin.
Proof.
  induction 1 as [| c w s H IH | c w s Hc Ha Hp H IH];
    intros qp lc pads bin.
  - reflexivity.
  - cbn [map Base64.a2b_base64_loop].
    destruct (Byte.to_N (Base64.byte_of_N c) =? Base64.BASE64_PAD).
    + destruct (2 <=? qp); [| apply IH].
      destruct (4 <=? qp + (pads + 1)); [reflexivity | apply IH].
    + destruct (Base64.table_a2b_base64 (Base64.byte_of_N c)) as [v |];
        [| apply IH].
      destruct (qp =? 0); [apply IH |].
      destruct (qp =? 1); [apply IH |].
      destruct (qp =? 2); apply IH.
  - cbn [map]. rewrite <- IH.
    apply (loop_skips_foreign (Base64.byte_of_N c) []).
    + rewrite to_N_byte_of_N by lia. exact Hp.
    + destruct (Base64.table_a2b_base64 (Base64.byte_of_N c)) as [v |]
        eqn:Ht; [| reflexivity].
      destruct (table_alpha _ _ Ht) as [Hal _].
      rewrite to_N_byte_of_N in Hal by lia. congruence.
Qed.

Lemma b64decode_with_foreign w s :
  with_foreign w s -> Base64.b64decode s = Base64.b64decode w.
Proof.
  intros H. unfold Base64.b64decode.
  rewrite !encode_ascii_forallb, (with_foreign_ascii w s H).
  destruct (forallb (fun c => c <? 128) w); [| reflexivity].
  apply (with_foreign_loop w s H).
Qed.

(** C2, amended. On every standard-input text the input decoder
    returns bytes and raises nothing: the empty byte sequence when the
    lenient decoding of the stripped text raises, and otherwise what
    that decoding gives. The decoding is lenient: when the stripped
    text is the base64 text of some bytes with ASCII characters that
    are not base64 put in anywhere, the decoder returns those bytes,
    although such a text is not well-formed base64. In every case the
    result is empty or the decoding of a well-formed base64 text that
    is left of the stripped text after deleting some characters. *)
Theorem read_stdin_decodes_leniently stdin w :
  exists data,
    read_stdin stdin w = (Return data, w)
    /\ (forall e, Base64.b64decode (strip stdin) = Raise e -> data = [])
    /\ (forall d, Base64.b64decode (strip stdin) = Return d -> data = d)
    /\ (forall d,
          with_foreign (Caller.b64encode d) (strip stdin) -> data = d)
    /\ (data = []
        \/ exists text,
             Spec.subsequence text (strip stdin)
             /\ Spec.well_formed_base64 text = true
             /\ Base64.b64decode text = Return data).
Proof.
  destruct (Base64.b64decode (strip stdin)) as [data | e0] eqn:Hd.
  - exists data.
    split; [now apply read_stdin_decoded |].
    split; [discriminate |].
    split; [congruence |].
    split.
    + intros d Hf. apply b64decode_with_foreign in Hf.
      rewrite b64decode_b64encode, Hd in Hf. congruence.
    + right. now apply b64decode_canonical.
  - exists [].
    split.
    { unfold read_stdin. destruct (is_empty (strip stdin));
        [reflexivity |].
      unfold try_except, lift. now rewrite Hd. }
    split; [reflexivity |].
    split; [discriminate |].
    split; [| now left].
    intros d Hf. apply b64decode_with_foreign in Hf.
    rewrite b64decode_b64encode, Hd in Hf. discriminate.
Qed.

Lemma read_stdin_decodes_leniently_witness :
  exists data,
    read_stdin (lit " YW Jj!") initial_world = (Return data, initial_world)
    /\ data = bytes_of "abc".
Proof.
  destruct (read_stdin_decodes_leniently (lit " YW Jj!") initial_world)
    as (data & Hrun & _ & _ & Hforeign & _).
  exists data. split; [exact Hrun |].
  apply Hforeign.
  change (with_foreign [89; 87; 74; 106] [89; 87; 32; 74; 106; 33]).
  repeat first
    [ apply foreign_nil
    | apply foreign_keep
    | apply foreign_put; [reflexivity | reflexivity | discriminate |] ].
Defined.

(** ** The script as shipped *)

(** C1. The script as shipped writes no JSON object: line 90 is no
    Python, so whatever the arguments, the standard input and the
    libraries, the process ends with [SyntaxError] before [main] is
    called and leaves standard output as it was. *)
Theorem script_never_writes rt argv stdin w :
  script rt argv stdin w = (Raise (Exn "SyntaxError"), w).
Proof.
  unfold script.
  assert (H : may_parse line_90 = false) by (vm_compute; reflexivity).
  now rewrite H.
Qed.

(** C5. On an argument list without a MIME type the script as shipped
    writes nothing, where [main], had it been called, would have
    written the envelope of the empty text. *)
Theorem script_unrecognized_mime_writes_nothing :
  stdout (final (script bare_runtime [lit "extract_docs.py"]
                        (lit "YWJjZGVmZ2g=")) initial_world) = []
  /\ stdout (final (main bare_runtime [lit "extract_docs.py"]
                         (lit "YWJjZGVmZ2g=")) initial_world)
     = [empty_envelope].
Proof. split; vm_compute; reflexivity. Qed.

(** C8. On empty standard input with the PDF MIME type the script as
    shipped writes nothing, where [main], had it been called, would
    have written the envelope of the empty text without a library
    call. *)
Theorem script_empty_input_writes_nothing :
  script bare_runtime [lit "extract_docs.py"; MIME_PDF] [] initial_world
  = (Raise (Exn "SyntaxError"), initial_world)
  /\ main bare_runtime [lit "extract_docs.py"; MIME_PDF] [] initial_world
     = (Return tt, World [] [empty_envelope]).
Proof. split; vm_compute; reflexivity. Qed.
